(** * PassWorld: the credential vault's persistence layer

    A shallow embedding of [src/core/models.py] and [src/core/database.py].

    The Python code talks to SQLite through the [sqlite3] module.  The
    embedding has three layers, one module each:

    - [Models]: the [PasswordEntry] dataclass;
    - [Sqlite3]: the part of the [sqlite3] module the code calls (connect,
      execute, commit, rollback, the connection's context manager, cursors),
      over an explicit database state, with the SQL statements of
      [database.py] as an abstract syntax and an interpreter that enforces
      exactly the constraints the schema declares;
    - [Database]: the functions of [database.py], written in a state and
      exception monad so that each reads like its source. *)

From Stdlib Require Import ZArith List String Bool Lia.
From Stdlib Require Import Strings.Byte.
Import ListNotations.

Local Open Scope string_scope.
Local Open Scope Z_scope.

(** Python [bytes]. *)
Definition bytes := list byte.

(** [datetime.datetime], to the second: seconds since the epoch. *)
Definition datetime := Z.

(* ================================================================== *)
(** ** models.py *)

Module Models.

(** [@dataclass class PasswordEntry]; [created_at: datetime = None]. *)
Record PasswordEntry := mkPasswordEntry {
  service : string;
  username : string;
  encrypted_password : bytes;
  created_at : option datetime
}.

(** The constructor call with three arguments, [created_at] left at its
    default. *)
Definition new_entry (s u : string) (p : bytes) : PasswordEntry :=
  mkPasswordEntry s u p None.

End Models.

(* ================================================================== *)
(** ** loguru *)

Inductive level := DEBUG | INFO | SUCCESS | WARNING | ERROR | CRITICAL.

(* ================================================================== *)
(** ** The sqlite3 module *)

Module Sqlite3.

(** The subclasses of [sqlite3.Error]. *)
Inductive Error :=
| InterfaceError
| DatabaseError
| DataError
| OperationalError
| IntegrityError
| InternalError
| ProgrammingError
| NotSupportedError.

Definition is_IntegrityError (e : Error) : bool :=
  match e with IntegrityError => true | _ => false end.

(** *** Stored data *)

(** The columns of the one table the code uses. *)
Inductive column := Id | Service | Username | EncryptedPassword | CreatedAt.

Inductive value :=
| VInt (z : Z)
| VText (s : string)
| VBlob (b : bytes).

Fixpoint bytes_eqb (a b : bytes) : bool :=
  match a, b with
  | [], [] => true
  | x :: a', y :: b' => Byte.eqb x y && bytes_eqb a' b'
  | _, _ => false
  end.

(** SQL [=] under the default BINARY collation; values of different storage
    classes are never equal. *)
Definition value_eqb (a b : value) : bool :=
  match a, b with
  | VInt x, VInt y => Z.eqb x y
  | VText x, VText y => String.eqb x y
  | VBlob x, VBlob y => bytes_eqb x y
  | _, _ => false
  end.

(** A row of [passwords].  [created_at] holds what CURRENT_TIMESTAMP wrote;
    the INSERT of [create_password] never supplies the column and the UPDATE
    of [update_password] never assigns it, so it is never NULL. *)
Record row := mkRow {
  r_id : Z;
  r_service : string;
  r_username : string;
  r_encrypted_password : bytes;
  r_created_at : datetime
}.

Definition cell (c : column) (r : row) : value :=
  match c with
  | Id => VInt (r_id r)
  | Service => VText (r_service r)
  | Username => VText (r_username r)
  | EncryptedPassword => VBlob (r_encrypted_password r)
  | CreatedAt => VInt (r_created_at r)
  end.

(** *** Schema objects *)

(** A column definition of CREATE TABLE with the constraints it declares. *)
Record column_def := mkColumn {
  cd_column : column;
  cd_type : string;
  cd_primary_key : bool;
  cd_autoincrement : bool;
  cd_not_null : bool;
  cd_unique : bool;
  cd_default_current_timestamp : bool
}.

Inductive sql_object :=
| Table (name : string) (cols : list column_def)
| Index (name : string) (uniq : bool) (table : string) (col : column).

Definition object_name (o : sql_object) : string :=
  match o with
  | Table n _ => n
  | Index n _ _ _ => n
  end.

(** The contents of the database file: the schema (sqlite_master), the rows
    of [passwords] in rowid order (the order of a scan and, among equal keys,
    of an index lookup) and the AUTOINCREMENT counter (sqlite_sequence). *)
Record database := mkDatabase {
  schema : list sql_object;
  rows : list row;
  sequence : Z
}.

(** What [sqlite3.connect] finds when the file does not exist yet. *)
Definition empty_database : database := mkDatabase [] [] 0.

Definition find_object (n : string) (d : database) : option sql_object :=
  find (fun o => String.eqb (object_name o) n) (schema d).

Definition has_table (n : string) (d : database) : bool :=
  match find_object n d with
  | Some (Table _ _) => true
  | _ => false
  end.

(** The columns of table [t] on which the schema declares uniqueness: PRIMARY
    KEY and UNIQUE columns of its definition, and the columns of its UNIQUE
    indexes. *)
Definition unique_of_object (t : string) (o : sql_object) : list column :=
  match o with
  | Table n cols =>
      if String.eqb n t
      then map cd_column (filter (fun c => cd_primary_key c || cd_unique c) cols)
      else []
  | Index _ u n c => if u && String.eqb n t then [c] else []
  end.

Definition unique_columns (t : string) (d : database) : list column :=
  flat_map (unique_of_object t) (schema d).

(** *** Statements *)

(** The SQL texts of [database.py], with their bound parameters. *)
Inductive statement :=
| PragmaForeignKeysOn
| CreateTableIfNotExists (name : string) (cols : list column_def)
| CreateIndexIfNotExists (name : string) (uniq : bool) (table : string) (col : column)
    (** INSERT INTO passwords (service, username, encrypted_password)
        VALUES (?, ?, ?) *)
| InsertInto (s u : string) (p : bytes)
    (** SELECT service, username, encrypted_password, created_at
        FROM passwords [WHERE col = ?] *)
| SelectFrom (where_ : option (column * value))
    (** UPDATE passwords SET service = ?, username = ?,
        encrypted_password = ? WHERE col = ? *)
| UpdateSet (s u : string) (p : bytes) (where_ : column * value)
    (** DELETE FROM passwords WHERE col = ? *)
| DeleteFrom (where_ : column * value).

(** INSERT, UPDATE and DELETE: the statements before which the module opens a
    transaction implicitly. *)
Definition is_dml (s : statement) : bool :=
  match s with
  | InsertInto _ _ _ | UpdateSet _ _ _ _ | DeleteFrom _ => true
  | _ => false
  end.

(** [sqlite3.Row] of the four selected columns. *)
Record Row := mkResult {
  col_service : string;
  col_username : string;
  col_encrypted_password : bytes;
  col_created_at : datetime
}.

Record Cursor := mkCursor {
  rowcount : Z;
  pending_rows : list Row
}.

Definition passwords : string := "passwords".

Definition matches (w : column * value) (r : row) : bool :=
  value_eqb (cell (fst w) r) (snd w).

Definition project (r : row) : Row :=
  mkResult (r_service r) (r_username r) (r_encrypted_password r) (r_created_at r).

Definition max_rowid (l : list row) : Z :=
  fold_right (fun r m => Z.max (r_id r) m) 0 l.

(** The largest rowid, 2^63 - 1. *)
Definition largest_rowid : Z := 9223372036854775807.

(** AUTOINCREMENT: one more than the largest rowid the table ever held.  It
    is handed out only while the table has not held [largest_rowid]. *)
Definition next_rowid (d : database) : Z :=
  Z.max (sequence d) (max_rowid (rows d)) + 1.

(** The table has held the largest rowid: AUTOINCREMENT has no id left, and
    an INSERT fails with SQLITE_FULL, an [OperationalError]. *)
Definition rowid_full (d : database) : bool :=
  largest_rowid <=? Z.max (sequence d) (max_rowid (rows d)).

Definition overwrite (s u : string) (p : bytes) (r : row) : row :=
  mkRow (r_id r) s u p (r_created_at r).

Fixpoint has_duplicate (l : list value) : bool :=
  match l with
  | [] => false
  | v :: l' => existsb (value_eqb v) l' || has_duplicate l'
  end.

(** The columns an UPDATE of [database.py] assigns. *)
Definition assigned (c : column) : bool :=
  match c with
  | Service | Username | EncryptedPassword => true
  | _ => false
  end.

(** One statement against the database as the connection sees it, at time
    [t]: an error, or the new contents and the cursor. *)
Definition run_statement (t : datetime) (s : statement) (d : database)
  : Error + database * Cursor :=
  match s with
  | PragmaForeignKeysOn => inr (d, mkCursor (-1) [])
  | CreateTableIfNotExists n cols =>
      match find_object n d with
      | Some (Table _ _) => inr (d, mkCursor (-1) [])
      | Some (Index _ _ _ _) => inl OperationalError
      | None =>
          inr (mkDatabase (schema d ++ [Table n cols])
                          (if String.eqb n passwords then [] else rows d)
                          (sequence d),
               mkCursor (-1) [])
      end
  | CreateIndexIfNotExists n u tbl c =>
      match find_object n d with
      | Some (Index _ _ _ _) => inr (d, mkCursor (-1) [])
      | Some (Table _ _) => inl OperationalError
      | None =>
          if negb (has_table tbl d) then inl OperationalError
          else if u && has_duplicate (map (cell c) (rows d)) then inl IntegrityError
          else inr (mkDatabase (schema d ++ [Index n u tbl c]) (rows d) (sequence d),
                    mkCursor (-1) [])
      end
  | InsertInto sv us pw =>
      if negb (has_table passwords d) then inl OperationalError
      else if rowid_full d then inl OperationalError
      else
        let r := mkRow (next_rowid d) sv us pw t in
        if existsb (fun c => existsb (fun r' => value_eqb (cell c r') (cell c r)) (rows d))
                   (unique_columns passwords d)
        then inl IntegrityError
        else inr (mkDatabase (schema d) (rows d ++ [r]) (r_id r), mkCursor 1 [])
  | SelectFrom wh =>
      if negb (has_table passwords d) then inl OperationalError
      else
        let hit := match wh with
                   | None => rows d
                   | Some w => filter (matches w) (rows d)
                   end in
        inr (d, mkCursor (-1) (map project hit))
  | UpdateSet sv us pw w =>
      if negb (has_table passwords d) then inl OperationalError
      else
        let n := Z.of_nat (List.length (filter (matches w) (rows d))) in
        let rows' := map (fun r => if matches w r then overwrite sv us pw r else r)
                         (rows d) in
        if (0 <? n)
           && existsb (fun c => assigned c && has_duplicate (map (cell c) rows'))
                      (unique_columns passwords d)
        then inl IntegrityError
        else inr (mkDatabase (schema d) rows' (sequence d), mkCursor n [])
  | DeleteFrom w =>
      if negb (has_table passwords d) then inl OperationalError
      else
        let n := Z.of_nat (List.length (filter (matches w) (rows d))) in
        inr (mkDatabase (schema d) (filter (fun r => negb (matches w r)) (rows d))
                        (sequence d),
             mkCursor n [])
  end.

(** *** The world *)

(** The places where the storage layer can fail on its own (file cannot be
    opened, disk I/O, lock, corruption), whatever the statement means. *)
Inductive interaction :=
| AtConnect
| AtExecute (s : statement)
| AtFetch
| AtCommit
| AtRollback.

Definition faults := interaction -> option Error.

Definition no_faults : faults := fun _ => None.

(** Everything the code reads or changes outside its arguments.
    [disk] is the committed contents of vault.db; [txn] the uncommitted
    contents seen by the connection in use while its transaction is open;
    [open_conns] counts connections opened and not closed; [now] is the
    clock behind CURRENT_TIMESTAMP; [env] says which interactions fail;
    [log] is what reached the logger. *)
Record world := mkWorld {
  disk : database;
  txn : option database;
  open_conns : nat;
  now : datetime;
  env : faults;
  log : list level
}.

Definition set_disk (d : database) (w : world) : world :=
  mkWorld d (txn w) (open_conns w) (now w) (env w) (log w).

Definition set_txn (t : option database) (w : world) : world :=
  mkWorld (disk w) t (open_conns w) (now w) (env w) (log w).

Definition set_open_conns (n : nat) (w : world) : world :=
  mkWorld (disk w) (txn w) n (now w) (env w) (log w).

Definition set_env (f : faults) (w : world) : world :=
  mkWorld (disk w) (txn w) (open_conns w) (now w) f (log w).

Definition add_log (l : level) (w : world) : world :=
  mkWorld (disk w) (txn w) (open_conns w) (now w) (env w) (log w ++ [l]).

(** The same world with a storage layer that does not fail. *)
Definition quiet (w : world) : world := set_env no_faults w.

(** A process start on a machine without vault.db. *)
Definition fresh_world (t : datetime) : world :=
  mkWorld empty_database None 0 t no_faults [].

(** The contents the connection in use sees. *)
Definition view (w : world) : database :=
  match txn w with
  | Some d => d
  | None => disk w
  end.

(** *** Computations that may raise *)

Inductive outcome (A : Type) :=
| Returned (a : A)
| Raised (e : Error).
Arguments Returned {A} a.
Arguments Raised {A} e.

Definition M (A : Type) : Type := world -> outcome A * world.

Definition ret {A} (a : A) : M A := fun w => (Returned a, w).

Definition raise {A} (e : Error) : M A := fun w => (Raised e, w).

Definition bind {A B} (m : M A) (k : A -> M B) : M B :=
  fun w =>
    match m w with
    | (Returned a, w') => k a w'
    | (Raised e, w') => (Raised e, w')
    end.

(** [try: m  except sqlite3.Error as e: h e]. *)
Definition try_except {A} (m : M A) (h : Error -> M A) : M A :=
  fun w =>
    match m w with
    | (Returned a, w') => (Returned a, w')
    | (Raised e, w') => h e w'
    end.

(** [logger.<level>(...)]. *)
Definition logger (l : level) : M unit := fun w => (Returned tt, add_log l w).

Declare Scope py_scope.
Delimit Scope py_scope with py.
Notation "x <- m ;; k" := (bind m (fun x => k))
  (at level 61, m at next level, right associativity) : py_scope.
Notation "m ;; k" := (bind m (fun _ => k))
  (at level 61, right associativity) : py_scope.
Local Open Scope py_scope.

(** *** Connections and cursors *)

Record Connection := mkConnection { database_path : string }.

(** [sqlite3.connect(path)]: opens (and if needed creates) the file.  The new
    connection has no transaction open. *)
Definition connect (path : string) : M Connection :=
  fun w =>
    match env w AtConnect with
    | Some e => (Raised e, w)
    | None => (Returned (mkConnection path),
               set_txn None (set_open_conns (S (open_conns w)) w))
    end.

(** [Connection.close()].  A handle leaves [open_conns] only here. *)
Definition close (conn : Connection) : M unit :=
  fun w => (Returned tt, set_txn None (set_open_conns (pred (open_conns w)) w)).

(** Where a successful statement leaves its result: in the open transaction,
    or straight on disk in autocommit mode. *)
Definition store (d : database) (w : world) : world :=
  match txn w with
  | Some _ => set_txn (Some d) w
  | None => set_disk d w
  end.

(** The implicit BEGIN. *)
Definition begin_ (w : world) : world :=
  match txn w with
  | Some _ => w
  | None => set_txn (Some (disk w)) w
  end.

(** [Connection.execute(sql, parameters)].  A transaction is opened before an
    INSERT, UPDATE or DELETE when none is open; a statement that fails
    changes nothing. *)
Definition execute (conn : Connection) (s : statement) : M Cursor :=
  fun w =>
    match env w (AtExecute s) with
    | Some e => (Raised e, w)
    | None =>
        let w1 := if is_dml s then begin_ w else w in
        match run_statement (now w1) s (view w1) with
        | inl e => (Raised e, w1)
        | inr (d, c) => (Returned c, store d w1)
        end
    end.

(** [Cursor.fetchone()] and [Cursor.fetchall()]. *)
Definition fetchone (c : Cursor) : M (option Row) :=
  fun w =>
    match env w AtFetch with
    | Some e => (Raised e, w)
    | None => (Returned (hd_error (pending_rows c)), w)
    end.

Definition fetchall (c : Cursor) : M (list Row) :=
  fun w =>
    match env w AtFetch with
    | Some e => (Raised e, w)
    | None => (Returned (pending_rows c), w)
    end.

(** [Connection.commit()]: nothing to do, and nothing that can fail, when no
    transaction is open. *)
Definition commit (conn : Connection) : M unit :=
  fun w =>
    match txn w with
    | None => (Returned tt, w)
    | Some d =>
        match env w AtCommit with
        | Some e => (Raised e, w)
        | None => (Returned tt, set_txn None (set_disk d w))
        end
    end.

(** [Connection.rollback()].  The uncommitted contents are gone even when the
    call reports an error: SQLite discards them at the latest when the
    connection goes away. *)
Definition rollback (conn : Connection) : M unit :=
  fun w =>
    match txn w with
    | None => (Returned tt, w)
    | Some _ =>
        match env w AtRollback with
        | Some e => (Raised e, set_txn None w)
        | None => (Returned tt, set_txn None w)
        end
    end.

(** [Connection.__exit__]: commit when the block ended normally (rolling back
    if the commit fails), roll back when it raised.  It does not close the
    connection, and it never swallows the exception. *)
Definition exit_ (conn : Connection) (exc : option Error) : M unit :=
  match exc with
  | None => try_except (commit conn) (fun e => rollback conn ;; raise e)
  | Some _ => rollback conn
  end.

(** [with acquire as conn: body conn].  A [return] inside the block runs
    [__exit__] first. *)
Definition with_ {A} (acquire : M Connection) (body : Connection -> M A) : M A :=
  conn <- acquire ;;
  fun w =>
    match body conn w with
    | (Returned a, w1) =>
        match exit_ conn None w1 with
        | (Returned _, w2) => (Returned a, w2)
        | (Raised e, w2) => (Raised e, w2)
        end
    | (Raised e, w1) =>
        match exit_ conn (Some e) w1 with
        | (Returned _, w2) => (Raised e, w2)
        | (Raised e', w2) => (Raised e', w2)
        end
    end.

End Sqlite3.

(* ================================================================== *)
(** ** database.py *)

Module Database.

Import Models Sqlite3.
Local Open Scope py_scope.

Definition DB_PATH : string := "data/vault.db".

(** [datetime.fromisoformat] on the text CURRENT_TIMESTAMP stored. *)
Definition fromisoformat (t : datetime) : datetime := t.

Definition get_connection : M Connection :=
  try_except
    (conn <- connect DB_PATH ;;
     execute conn PragmaForeignKeysOn ;;
     ret conn)
    (fun e => logger CRITICAL ;; raise e).

(** The column list of CREATE TABLE IF NOT EXISTS passwords. *)
Definition passwords_columns : list column_def :=
  [ mkColumn Id "INTEGER" true true false false false;
    mkColumn Service "TEXT" false false true false false;
    mkColumn Username "TEXT" false false true false false;
    mkColumn EncryptedPassword "BLOB" false false true false false;
    mkColumn CreatedAt "TIMESTAMP" false false false false true ].

Definition init_db : M unit :=
  try_except
    (with_ get_connection (fun conn =>
       execute conn (CreateTableIfNotExists passwords passwords_columns) ;;
       execute conn (CreateIndexIfNotExists "idx_service" false passwords Service) ;;
       execute conn (CreateIndexIfNotExists "idx_username" false passwords Username) ;;
       ret tt) ;;
     logger INFO)
    (fun e => logger ERROR ;; raise e).

Definition to_entry (r : Row) : PasswordEntry :=
  mkPasswordEntry (col_service r) (col_username r) (col_encrypted_password r)
                  (Some (fromisoformat (col_created_at r))).

Definition create_password (entry : PasswordEntry) : M bool :=
  try_except
    (with_ get_connection (fun conn =>
       cursor <- execute conn (InsertInto (service entry) (username entry)
                                          (encrypted_password entry)) ;;
       commit conn ;;
       logger SUCCESS ;;
       ret (0 <? rowcount cursor)))
    (fun e =>
       if is_IntegrityError e
       then logger WARNING ;; ret false
       else logger ERROR ;; ret false).

Definition read_all_passwords : M (list PasswordEntry) :=
  try_except
    (with_ get_connection (fun conn =>
       cursor <- execute conn (SelectFrom None) ;;
       fetched <- fetchall cursor ;;
       ret (map to_entry fetched)))
    (fun e => logger ERROR ;; ret []).

Definition read_password_by_service (service : string) : M (option PasswordEntry) :=
  try_except
    (with_ get_connection (fun conn =>
       cursor <- execute conn (SelectFrom (Some (Service, VText service))) ;;
       row <- fetchone cursor ;;
       match row with
       | Some r => ret (Some (to_entry r))
       | None => logger DEBUG ;; ret None
       end))
    (fun e => logger ERROR ;; ret None).

Definition read_password_by_username (username : string) : M (option PasswordEntry) :=
  try_except
    (with_ get_connection (fun conn =>
       cursor <- execute conn (SelectFrom (Some (Username, VText username))) ;;
       row <- fetchone cursor ;;
       match row with
       | Some r => ret (Some (to_entry r))
       | None => logger DEBUG ;; ret None
       end))
    (fun e => logger ERROR ;; ret None).

Definition update_password (service : string) (new_entry : PasswordEntry) : M bool :=
  try_except
    (with_ get_connection (fun conn =>
       cursor <- execute conn (UpdateSet (Models.service new_entry) (username new_entry)
                                         (encrypted_password new_entry)
                                         (Service, VText service)) ;;
       commit conn ;;
       let success := 0 <? rowcount cursor in
       (if success then logger INFO else logger WARNING) ;;
       ret success))
    (fun e =>
       if is_IntegrityError e
       then logger ERROR ;; ret false
       else logger ERROR ;; ret false).

Definition delete_password (service : string) : M bool :=
  try_except
    (with_ get_connection (fun conn =>
       cursor <- execute conn (DeleteFrom (Service, VText service)) ;;
       commit conn ;;
       let success := 0 <? rowcount cursor in
       (if success then logger INFO else logger WARNING) ;;
       ret success))
    (fun e => logger ERROR ;; ret false).

(** The module body: [init_db()] runs at import; a failure is logged and
    raised again. *)
Definition import_module : M unit :=
  try_except init_db (fun e => logger CRITICAL ;; raise e).

End Database.

(* ================================================================== *)
(** ** Vocabulary of the statements below *)

Import Models Sqlite3 Database.
Local Open Scope py_scope.

(** The schema [init_db] leaves in a file that had none. *)
Definition vault_schema : list sql_object :=
  [ Table passwords passwords_columns;
    Index "idx_service" false passwords Service;
    Index "idx_username" false passwords Username ].

(** Row [r] is the one [WHERE service = ?] selects for key [s]. *)
Definition keyed (s : string) (r : row) : bool := String.eqb (r_service r) s.

Definition by_username (u : string) (r : row) : bool := String.eqb (r_username r) u.

Definition has_index (n : string) (d : database) : bool :=
  match find_object n d with
  | Some (Index _ _ _ _) => true
  | _ => false
  end.

(** The table and the two indexes of [init_db] are in the schema. *)
Definition initialised (d : database) : bool :=
  has_table passwords d && has_index "idx_service" d && has_index "idx_username" d.

(** The storage layer does not fail at interaction [i]. *)
Definition works (w : world) (i : interaction) : bool :=
  match env w i with
  | None => true
  | Some _ => false
  end.

(** Nothing fails on the path of a writing operation whose statement is [q]:
    connect, PRAGMA, the statement itself (the table is there), COMMIT. *)
Definition write_ok (q : statement) (w : world) : bool :=
  works w AtConnect && works w (AtExecute PragmaForeignKeysOn)
  && works w (AtExecute q) && has_table passwords (disk w) && works w AtCommit.

(** Nothing fails on the path of a reading operation whose query is [q]. *)
Definition read_ok (q : statement) (w : world) : bool :=
  works w AtConnect && works w (AtExecute PragmaForeignKeysOn)
  && works w (AtExecute q) && has_table passwords (disk w) && works w AtFetch.

(** How many connections a call opens. *)
Definition connects (w : world) : nat :=
  match env w AtConnect with
  | None => 1
  | Some _ => 0
  end.

(** The entry a read builds from a stored row. *)
Definition entry_of (r : row) : PasswordEntry := to_entry (project r).

(** [update_password s e] on a storage layer that works, then a read of the
    new key: the update reports success, every row keyed by [s] took the three
    values of [e] and kept its id and [created_at], every other row is as it
    was, and the read returns [e]'s values with the [created_at] of [r]. *)
Definition update_then_read (w : world) (s : string) (e : PasswordEntry) (r : row)
  : Prop :=
  exists w' w'',
    update_password s e (quiet w) = (Returned true, w') /\
    rows (disk w') =
      map (fun x => if keyed s x
                    then mkRow (r_id x) (service e) (username e)
                               (encrypted_password e) (r_created_at x)
                    else x)
          (rows (disk w)) /\
    read_password_by_service (service e) w' =
      (Returned (Some (mkPasswordEntry (service e) (username e)
                                       (encrypted_password e)
                                       (Some (r_created_at r)))), w'').

(** init_db, then two calls of create_password. *)
Definition create_twice (e1 e2 : PasswordEntry) : M (bool * bool) :=
  init_db ;;
  a <- create_password e1 ;;
  b <- create_password e2 ;;
  ret (a, b).

(** The scenario of the specification's section 8, from a new vault:
    create github, read it, rename it to github-new, read both keys, delete
    github-new, read all. *)
Definition end_to_end
  : M (bool * option PasswordEntry * bool * option PasswordEntry
       * option PasswordEntry * bool * list PasswordEntry) :=
  init_db ;;
  c <- create_password (new_entry "github" "alice" [Byte.x01; Byte.x02]) ;;
  r1 <- read_password_by_service "github" ;;
  u <- update_password "github" (new_entry "github-new" "alice2" [Byte.x03]) ;;
  r2 <- read_password_by_service "github" ;;
  r3 <- read_password_by_service "github-new" ;;
  d <- delete_password "github-new" ;;
  l <- read_all_passwords ;;
  ret (c, r1, u, r2, r3, d, l).

(** *** Sample data *)

Definition github : PasswordEntry :=
  new_entry "github" "alice" [Byte.x01; Byte.x02].

Definition github_bob : PasswordEntry :=
  new_entry "github" "bob" [Byte.x03].

Definition github_row : row :=
  mkRow 1 "github" "alice" [Byte.x01; Byte.x02] 1700000000.

Definition gitlab_row : row :=
  mkRow 2 "gitlab" "carol" [Byte.x04] 1700000050.

(** A vault that [init_db] has set up, holding rows [l], at time [t], on a
    storage layer that works. *)
Definition vault_with (l : list row) (t : datetime) : world :=
  mkWorld (mkDatabase vault_schema l (max_rowid l)) None 0 t no_faults [].

(** A disk that fails every COMMIT. *)
Definition commit_fails : faults :=
  fun i => match i with
           | AtCommit => Some OperationalError
           | _ => None
           end.

(** A file that cannot be opened. *)
Definition cannot_open : faults :=
  fun i => match i with
           | AtConnect => Some OperationalError
           | _ => None
           end.

(** *** More vocabulary *)

(** [get_connection] raises: the file cannot be opened or the PRAGMA fails. *)
Definition connection_fails (w : world) : bool :=
  negb (works w AtConnect && works w (AtExecute PragmaForeignKeysOn)).

(** What an operation that could not get its connection logs: CRITICAL from
    [get_connection], then its own line. *)
Definition failure_lines (w : world) (own : level) : list level :=
  if connection_fails w then [CRITICAL; own] else [own].

(** The identity of a row and the time it was created. *)
Definition stamp (r : row) : Z * datetime := (r_id r, r_created_at r).

(** The rowids increase along the table and none exceeds the AUTOINCREMENT
    counter. *)
Fixpoint increasing (l : list Z) : bool :=
  match l with
  | [] => true
  | x :: l' => forallb (fun y => x <? y) l' && increasing l'
  end.

Definition ids_ok (d : database) : bool :=
  increasing (map r_id (rows d))
  && forallb (fun r => r_id r <=? sequence d) (rows d).

(** No row of the table has rowid [x]. *)
Definition unused (x : Z) (l : list row) : bool :=
  forallb (fun r => negb (r_id r =? x)) l.

(** A call of one of the functions of [database.py]. *)
Inductive call :=
| Init
| Create (e : PasswordEntry)
| ReadAll
| ReadByService (s : string)
| ReadByUsername (u : string)
| Update (s : string) (e : PasswordEntry)
| Delete (s : string).

(** The world after the call. *)
Definition after (c : call) (w : world) : world :=
  match c with
  | Init => snd (init_db w)
  | Create e => snd (create_password e w)
  | ReadAll => snd (read_all_passwords w)
  | ReadByService s => snd (read_password_by_service s w)
  | ReadByUsername u => snd (read_password_by_username u w)
  | Update s e => snd (update_password s e w)
  | Delete s => snd (delete_password s w)
  end.

(** The same world at time [t] with storage behaviour [f]. *)
Definition at_moment (t : datetime) (f : faults) (w : world) : world :=
  mkWorld (disk w) (txn w) (open_conns w) t f (log w).

(** A history: calls one after the other, each at its own time and under its
    own storage behaviour. *)
Fixpoint after_all (h : list (datetime * faults * call)) (w : world) : world :=
  match h with
  | [] => w
  | (t, f, c) :: h' => after_all h' (after c (at_moment t f w))
  end.

(** A storage layer on which only CREATE INDEX idx_username fails. *)
Definition username_index_fails (e : Error) : faults :=
  fun i => match i with
           | AtExecute (CreateIndexIfNotExists n _ _ _) =>
               if String.eqb n "idx_username" then Some e else None
           | _ => None
           end.

(** The scenario of the specification's section 8 for arbitrary keys and
    values: create [s], read it, rename it to [s'], read both keys, delete
    [s'], read all. *)
Definition lifecycle (s u : string) (p : bytes) (s' u' : string) (p' : bytes)
  : M (bool * option PasswordEntry * bool * option PasswordEntry
       * option PasswordEntry * bool * list PasswordEntry) :=
  init_db ;;
  c <- create_password (new_entry s u p) ;;
  r1 <- read_password_by_service s ;;
  b <- update_password s (new_entry s' u' p') ;;
  r2 <- read_password_by_service s ;;
  r3 <- read_password_by_service s' ;;
  d <- delete_password s' ;;
  l <- read_all_passwords ;;
  ret (c, r1, b, r2, r3, d, l).

(* ================================================================== *)
(** ** Running the code symbolically *)

Ltac unfold_py :=
  cbv beta iota zeta delta [
    create_password read_all_passwords read_password_by_service
    read_password_by_username update_password delete_password init_db
    import_module create_twice end_to_end
    try_except with_ get_connection bind connect execute fetchall fetchone
    exit_ commit rollback logger ret raise begin_ store view
    set_txn set_disk set_open_conns set_env add_log quiet no_faults is_dml
    works write_ok read_ok connects
    txn disk open_conns now env log fst snd].

(** One case split on what the storage layer answers next. *)
Ltac case_step :=
  match goal with
  | |- context [run_statement ?t PragmaForeignKeysOn ?d] =>
      change (run_statement t PragmaForeignKeysOn d) with
        (@inr Error (database * Cursor) (d, mkCursor (-1) []))
  | |- context [match ?f AtConnect with _ => _ end] =>
      destruct (f AtConnect) eqn:?
  | |- context [match ?f (AtExecute ?s) with _ => _ end] =>
      destruct (f (AtExecute s)) eqn:?
  | |- context [match ?f AtFetch with _ => _ end] =>
      destruct (f AtFetch) eqn:?
  | |- context [match ?f AtCommit with _ => _ end] =>
      destruct (f AtCommit) eqn:?
  | |- context [match ?f AtRollback with _ => _ end] =>
      destruct (f AtRollback) eqn:?
  | |- context [match run_statement ?t ?s ?d with _ => _ end] =>
      let e := fresh "e" in
      let d' := fresh "d'" in
      let c := fresh "c" in
      destruct (run_statement t s d) as [e | [d' c]] eqn:?
  | |- context [if is_IntegrityError ?e then _ else _] =>
      destruct (is_IntegrityError e)
  | |- context [if (0 <? rowcount ?c) then _ else _] =>
      destruct (0 <? rowcount c) eqn:?
  | |- context [match hd_error ?l with _ => _ end] =>
      destruct (hd_error l) eqn:?
  end; unfold_py.

Ltac run_py := unfold_py; repeat case_step.

(* ================================================================== *)
(** ** The statements, one by one *)

Section Statements.

Variables (t : datetime) (d : database).

Lemma select_inv wh d' c :
  run_statement t (SelectFrom wh) d = inr (d', c) ->
  has_table passwords d = true /\ d' = d /\
  pending_rows c = map project (match wh with
                                | None => rows d
                                | Some w => filter (matches w) (rows d)
                                end).
Proof.
  unfold run_statement. destruct (has_table passwords d); simpl; [|discriminate].
  intros H. inversion H. auto.
Qed.

Lemma select_err wh e :
  run_statement t (SelectFrom wh) d = inl e -> has_table passwords d = false.
Proof.
  unfold run_statement. destruct (has_table passwords d); simpl; [discriminate|auto].
Qed.

Lemma insert_inv sv us pw d' c :
  run_statement t (InsertInto sv us pw) d = inr (d', c) ->
  has_table passwords d = true /\ rowcount c = 1 /\
  d' = mkDatabase (schema d) (rows d ++ [mkRow (next_rowid d) sv us pw t])
                  (next_rowid d).
Proof.
  unfold run_statement. destruct (has_table passwords d); simpl; [|discriminate].
  destruct (rowid_full d); [discriminate|].
  destruct (existsb _ _); [discriminate|].
  intros H. inversion H. auto.
Qed.

Lemma update_inv sv us pw w d' c :
  run_statement t (UpdateSet sv us pw w) d = inr (d', c) ->
  has_table passwords d = true /\
  rowcount c = Z.of_nat (List.length (filter (matches w) (rows d))) /\
  d' = mkDatabase (schema d)
         (map (fun r => if matches w r then overwrite sv us pw r else r) (rows d))
         (sequence d).
Proof.
  unfold run_statement. destruct (has_table passwords d); simpl; [|discriminate].
  destruct (_ && _); [discriminate|].
  intros H. inversion H. auto.
Qed.

Lemma delete_eq w :
  run_statement t (DeleteFrom w) d =
  if has_table passwords d
  then inr (mkDatabase (schema d) (filter (fun r => negb (matches w r)) (rows d))
                       (sequence d),
            mkCursor (Z.of_nat (List.length (filter (matches w) (rows d)))) [])
  else inl OperationalError.
Proof. unfold run_statement. destruct (has_table passwords d); reflexivity. Qed.

End Statements.

(** *** Lists of rows *)

Lemma no_match_length (p : row -> bool) (l : list row) :
  (0 <? Z.of_nat (List.length (filter p l))) = existsb p l.
Proof.
  induction l as [|r l IH]; simpl; [reflexivity|].
  destruct (p r); simpl; [|exact IH].
  apply Z.ltb_lt. lia.
Qed.

Lemma map_no_match (p : row -> bool) (f : row -> row) (l : list row) :
  existsb p l = false -> map (fun r => if p r then f r else r) l = l.
Proof.
  induction l as [|r l IH]; simpl; [reflexivity|].
  intros H. apply orb_false_iff in H. destruct H as [Hr Hl].
  rewrite Hr, IH by assumption. reflexivity.
Qed.

Lemma filter_no_match (p : row -> bool) (l : list row) :
  existsb p l = false -> filter (fun r => negb (p r)) l = l.
Proof.
  induction l as [|r l IH]; simpl; [reflexivity|].
  intros H. apply orb_false_iff in H. destruct H as [Hr Hl].
  rewrite Hr, IH by assumption. reflexivity.
Qed.

Lemma removed_all (p : row -> bool) (l : list row) :
  existsb p (filter (fun r => negb (p r)) l) = false.
Proof.
  induction l as [|r l IH]; simpl; [reflexivity|].
  destruct (p r) eqn:Hr; simpl; [exact IH|].
  rewrite Hr, IH. reflexivity.
Qed.

Lemma database_eta (d : database) :
  mkDatabase (schema d) (rows d) (sequence d) = d.
Proof. destruct d; reflexivity. Qed.

Lemma first_hit {B} (f : row -> B) (p : row -> bool) (l : list row) :
  hd_error (map f (filter p l)) = option_map f (find p l).
Proof.
  induction l as [|r l IH]; simpl; [reflexivity|].
  destruct (p r); simpl; [reflexivity|exact IH].
Qed.

Lemma find_none_existsb (p : row -> bool) (l : list row) :
  existsb p l = false -> find p l = None.
Proof.
  induction l as [|r l IH]; simpl; [reflexivity|].
  destruct (p r); simpl; [discriminate|exact IH].
Qed.

(* ================================================================== *)
(** ** What each operation returns and writes *)

(** Facts a finished run leaves in the context are turned into equations on
    the table. *)
Ltac use_statement_facts :=
  repeat match goal with
  | H : run_statement _ (SelectFrom _) _ = inr _ |- _ =>
      apply select_inv in H; destruct H as (? & ? & ?); subst
  | H : run_statement _ (SelectFrom _) _ = inl _ |- _ =>
      apply select_err in H
  | H : run_statement _ (InsertInto _ _ _) _ = inr _ |- _ =>
      apply insert_inv in H; destruct H as (? & ? & ?); subst
  | H : run_statement _ (UpdateSet _ _ _ _) _ = inr _ |- _ =>
      apply update_inv in H; destruct H as (? & ? & ?); subst
  | H : run_statement _ (DeleteFrom _) _ = _ |- _ =>
      rewrite delete_eq in H; destruct (has_table passwords _) eqn:?;
      inversion H; subst; clear H
  end.

(** The first fetched row is the first row of the table that matches. *)
Ltac first_row p :=
  match goal with
  | H : hd_error (pending_rows ?c) = _, P : pending_rows ?c = _ |- _ =>
      rewrite P, first_hit in H; change (matches _) with p in H;
      destruct (find p _); simpl in H; inversion H; try reflexivity
  end.

Ltac settle_table :=
  use_statement_facts;
  repeat match goal with H : has_table _ _ = _ |- _ => rewrite H end;
  try discriminate; try reflexivity.

Lemma read_password_by_service_result (s : string) (w : world) :
  fst (read_password_by_service s w) =
  Returned (if read_ok (SelectFrom (Some (Service, VText s))) w
            then option_map entry_of (find (keyed s) (rows (disk w)))
            else None).
Proof.
  destruct w as [d tx n c f l]. run_py; settle_table; first_row (keyed s).
Qed.

Lemma read_password_by_username_result (u : string) (w : world) :
  fst (read_password_by_username u w) =
  Returned (if read_ok (SelectFrom (Some (Username, VText u))) w
            then option_map entry_of (find (by_username u) (rows (disk w)))
            else None).
Proof.
  destruct w as [d tx n c f l]. run_py; settle_table; first_row (by_username u).
Qed.

Lemma read_all_passwords_result (w : world) :
  fst (read_all_passwords w) =
  Returned (if read_ok (SelectFrom None) w
            then map entry_of (rows (disk w))
            else []).
Proof.
  destruct w as [d tx n c f l]. run_py; settle_table.
  all: match goal with P : pending_rows _ = _ |- _ => rewrite P end.
  all: rewrite map_map; reflexivity.
Qed.

Lemma delete_password_result (s : string) (w : world) :
  fst (delete_password s w) =
  Returned (write_ok (DeleteFrom (Service, VText s)) w
            && existsb (keyed s) (rows (disk w))).
Proof.
  destruct w as [d tx n c f l]. run_py; settle_table;
    rewrite ?andb_false_r; try reflexivity;
    cbn [rowcount] in *; change (matches (Service, VText s)) with (keyed s) in *;
    rewrite no_match_length in *; simpl; congruence.
Qed.

Lemma delete_password_disk (s : string) (w : world) :
  disk (snd (delete_password s w)) =
  if write_ok (DeleteFrom (Service, VText s)) w
  then mkDatabase (schema (disk w))
                  (filter (fun r => negb (keyed s r)) (rows (disk w)))
                  (sequence (disk w))
  else disk w.
Proof.
  destruct w as [d tx n c f l]. run_py; settle_table.
Qed.

(* ================================================================== *)
(** ** Reads *)

(** C10: the three read operations leave the stored state as it was: for
    every world (whatever the storage layer does) and every argument, the
    committed contents of the file after [read_all_passwords],
    [read_password_by_service] and [read_password_by_username] are the
    contents before the call, rows and their [created_at] included. *)
Theorem reads_leave_disk_unchanged (w : world) (s u : string) :
  disk (snd (read_all_passwords w)) = disk w /\
  disk (snd (read_password_by_service s w)) = disk w /\
  disk (snd (read_password_by_username u w)) = disk w.
Proof.
  destruct w as [d tx n c f l].
  repeat split; run_py; settle_table.
Qed.

(* ================================================================== *)
(** ** Errors stay inside *)

(** C6: no [sqlite3.Error] leaves a CRUD operation, whatever the input and
    whatever fails in the storage layer: create, update and delete return a
    boolean; the reads by key return an optional entry, [None] when the
    storage layer fails and [None] when no row matches; [read_all_passwords]
    returns a list, empty when the storage layer fails and empty when the
    table has no rows. *)
Theorem crud_never_raises (w : world) (e : PasswordEntry) (s u : string) :
  (exists b, fst (create_password e w) = Returned b) /\
  (exists b, fst (update_password s e w) = Returned b) /\
  (exists b, fst (delete_password s w) = Returned b) /\
  ((exists o, fst (read_password_by_service s w) = Returned o) /\
   (read_ok (SelectFrom (Some (Service, VText s))) w = false ->
    fst (read_password_by_service s w) = Returned None) /\
   (existsb (keyed s) (rows (disk w)) = false ->
    fst (read_password_by_service s w) = Returned None)) /\
  ((exists o, fst (read_password_by_username u w) = Returned o) /\
   (read_ok (SelectFrom (Some (Username, VText u))) w = false ->
    fst (read_password_by_username u w) = Returned None) /\
   (existsb (by_username u) (rows (disk w)) = false ->
    fst (read_password_by_username u w) = Returned None)) /\
  ((exists l, fst (read_all_passwords w) = Returned l) /\
   (read_ok (SelectFrom None) w = false ->
    fst (read_all_passwords w) = Returned []) /\
   (rows (disk w) = [] -> fst (read_all_passwords w) = Returned [])).
Proof.
  split; [|split; [|split; [|split; [|split]]]].
  - destruct w as [d tx n c f l]. run_py; eauto.
  - destruct w as [d tx n c f l]. run_py; eauto.
  - rewrite delete_password_result. eauto.
  - rewrite read_password_by_service_result. repeat split.
    + eauto.
    + intros H. rewrite H. reflexivity.
    + intros H. rewrite (find_none_existsb _ _ H).
      destruct (read_ok _ w); reflexivity.
  - rewrite read_password_by_username_result. repeat split.
    + eauto.
    + intros H. rewrite H. reflexivity.
    + intros H. rewrite (find_none_existsb _ _ H).
      destruct (read_ok _ w); reflexivity.
  - rewrite read_all_passwords_result. repeat split.
    + eauto.
    + intros H. rewrite H. reflexivity.
    + intros H. rewrite H. destruct (read_ok _ w); reflexivity.
Qed.

(** The file cannot be opened: both reads answer as they do for a vault
    without rows. *)
Lemma crud_never_raises_witness :
  fst (read_password_by_service "github"
         (set_env cannot_open (vault_with [github_row] 0))) = Returned None /\
  fst (read_all_passwords (vault_with [] 0)) = Returned [].
Proof.
  split.
  - destruct (crud_never_raises (set_env cannot_open (vault_with [github_row] 0))
                                github "github" "alice")
      as (_ & _ & _ & (_ & H & _) & _).
    apply H. reflexivity.
  - destruct (crud_never_raises (vault_with [] 0) github "github" "alice")
      as (_ & _ & _ & _ & _ & (_ & _ & H)).
    apply H. reflexivity.
Defined.

(** X2: [init_db] is the contrast: when the file cannot be opened the error
    is logged and raised again to the caller, and the file is untouched. *)
Theorem init_db_raises_when_file_cannot_be_opened (w : world) (e : Error) :
  env w AtConnect = Some e ->
  fst (init_db w) = Raised e /\ disk (snd (init_db w)) = disk w.
Proof.
  destruct w as [d tx n c f l]. cbn [env]. intros H.
  split; run_py; congruence.
Qed.

Lemma init_db_raises_when_file_cannot_be_opened_witness :
  fst (init_db (set_env cannot_open (fresh_world 0))) = Raised OperationalError.
Proof.
  apply (init_db_raises_when_file_cannot_be_opened
           (set_env cannot_open (fresh_world 0)) OperationalError).
  reflexivity.
Defined.

(* ================================================================== *)
(** ** Connections *)

(** C9 (what the code does): every CRUD operation ends with one more open
    connection than it started with whenever [sqlite3.connect] succeeded, on
    every exit path: the with-block commits or rolls back, and nothing calls
    [close]. *)
Theorem crud_leaves_connection_open (w : world) (e : PasswordEntry) (s u : string) :
  open_conns (snd (create_password e w)) = (open_conns w + connects w)%nat /\
  open_conns (snd (read_all_passwords w)) = (open_conns w + connects w)%nat /\
  open_conns (snd (read_password_by_service s w)) = (open_conns w + connects w)%nat /\
  open_conns (snd (read_password_by_username u w)) = (open_conns w + connects w)%nat /\
  open_conns (snd (update_password s e w)) = (open_conns w + connects w)%nat /\
  open_conns (snd (delete_password s w)) = (open_conns w + connects w)%nat.
Proof.
  destruct w as [d tx n c f l].
  repeat split; run_py; lia.
Qed.

(** Had the block ended with [close], the count would be back where it was. *)
Lemma close_after_connect (path : string) (w : world) :
  env w AtConnect = None ->
  open_conns (snd ((conn <- connect path ;; close conn) w)) = open_conns w.
Proof.
  destruct w as [d tx n c f l]. cbn [env]. intros H.
  unfold bind, connect, close. cbn [env]. rewrite H. reflexivity.
Qed.

(* ================================================================== *)
(** ** Failed writes *)

Lemma create_password_false (w : world) (e : PasswordEntry) :
  fst (create_password e w) = Returned false ->
  disk (snd (create_password e w)) = disk w.
Proof.
  destruct w as [d tx n c f l]. run_py; settle_table.
  cbn [rowcount] in *.
  match goal with H : rowcount _ = 1 |- _ => rewrite H end.
  discriminate.
Qed.

Lemma update_password_false (w : world) (s : string) (e : PasswordEntry) :
  fst (update_password s e w) = Returned false ->
  disk (snd (update_password s e w)) = disk w.
Proof.
  destruct w as [d tx n c f l]. run_py; settle_table.
  intros _.
  match goal with
  | H : rowcount ?c = _, H' : (0 <? rowcount ?c) = false |- _ =>
      rewrite H, no_match_length in H'; rewrite (map_no_match _ _ _ H')
  end.
  apply database_eta.
Qed.

Lemma delete_password_false (w : world) (s : string) :
  fst (delete_password s w) = Returned false ->
  disk (snd (delete_password s w)) = disk w.
Proof.
  destruct w as [d tx n c f l]. run_py; settle_table.
  intros _. cbn [rowcount] in *.
  match goal with
  | H' : (0 <? _) = false |- _ =>
      rewrite no_match_length in H'; rewrite (filter_no_match _ _ H')
  end.
  apply database_eta.
Qed.

(** C7: a write that reports failure has written nothing: whenever
    [create_password], [update_password] or [delete_password] returns
    [False] (row not found, or any failure of the storage layer at any
    point), the committed contents of the file, rows included, are what they
    were before the call. *)
Theorem failed_write_leaves_vault_unchanged
  (w w' : world) (e : PasswordEntry) (s : string) :
  (create_password e w = (Returned false, w') -> disk w' = disk w) /\
  (update_password s e w = (Returned false, w') -> disk w' = disk w) /\
  (delete_password s w = (Returned false, w') -> disk w' = disk w).
Proof.
  repeat split; intros H.
  - assert (Hw : w' = snd (create_password e w)) by (rewrite H; reflexivity).
    subst w'. apply create_password_false. rewrite H. reflexivity.
  - assert (Hw : w' = snd (update_password s e w)) by (rewrite H; reflexivity).
    subst w'. apply update_password_false. rewrite H. reflexivity.
  - assert (Hw : w' = snd (delete_password s w)) by (rewrite H; reflexivity).
    subst w'. apply delete_password_false. rewrite H. reflexivity.
Qed.

(** A create whose COMMIT fails, an update and a delete of a key that is not
    there. *)
Lemma failed_write_leaves_vault_unchanged_witness :
  disk (snd (create_password github (set_env commit_fails (vault_with [gitlab_row] 5))))
  = disk (vault_with [gitlab_row] 5) /\
  disk (snd (update_password "github" github_bob (vault_with [gitlab_row] 5)))
  = disk (vault_with [gitlab_row] 5) /\
  disk (snd (delete_password "github" (vault_with [gitlab_row] 5)))
  = disk (vault_with [gitlab_row] 5).
Proof.
  split; [|split].
  - apply (proj1 (failed_write_leaves_vault_unchanged
                    (set_env commit_fails (vault_with [gitlab_row] 5))
                    (snd (create_password github
                            (set_env commit_fails (vault_with [gitlab_row] 5))))
                    github "github")).
    reflexivity.
  - apply (proj1 (proj2 (failed_write_leaves_vault_unchanged
                    (vault_with [gitlab_row] 5)
                    (snd (update_password "github" github_bob
                            (vault_with [gitlab_row] 5)))
                    github_bob "github"))).
    reflexivity.
  - apply (proj2 (proj2 (failed_write_leaves_vault_unchanged
                    (vault_with [gitlab_row] 5)
                    (snd (delete_password "github" (vault_with [gitlab_row] 5)))
                    github "github"))).
    reflexivity.
Defined.

(* ================================================================== *)
(** ** Delete *)

(** C5: [delete_password s] never raises, and returns [True] exactly when
    nothing failed in the storage layer and a row keyed by [s] existed; then
    no row keyed by [s] is left and [read_password_by_service s] returns
    [None]. On a key that does not exist, and on any failure of the storage
    layer, it returns [False]. *)
Theorem delete_password_true_iff_removed (s : string) (w : world) :
  exists b w',
    delete_password s w = (Returned b, w') /\
    b = write_ok (DeleteFrom (Service, VText s)) w
        && existsb (keyed s) (rows (disk w)) /\
    (b = true ->
     rows (disk w') = filter (fun r => negb (keyed s r)) (rows (disk w)) /\
     existsb (keyed s) (rows (disk w')) = false /\
     forall f, fst (read_password_by_service s (set_env f w')) = Returned None).
Proof.
  pose proof (delete_password_result s w) as Hb.
  pose proof (delete_password_disk s w) as Hd.
  destruct (delete_password s w) as [o w'] eqn:Hrun. cbn [fst snd] in *. subst o.
  eexists; exists w'. split; [reflexivity|]. split; [reflexivity|].
  intros Htrue. apply andb_true_iff in Htrue. destruct Htrue as [Hok _].
  rewrite Hok in Hd.
  assert (Hrows : rows (disk w') = filter (fun r => negb (keyed s r)) (rows (disk w)))
    by (rewrite Hd; reflexivity).
  assert (Hgone : existsb (keyed s) (rows (disk w')) = false)
    by (rewrite Hrows; apply removed_all).
  repeat split; try assumption.
  intros f. rewrite read_password_by_service_result.
  replace (disk (set_env f w')) with (disk w') by (destruct w'; reflexivity).
  rewrite (find_none_existsb _ _ Hgone).
  destruct (read_ok _ _); reflexivity.
Qed.

(** Deleting the one row of a vault. *)
Lemma delete_password_true_iff_removed_witness :
  exists w',
    delete_password "github" (vault_with [github_row] 9) = (Returned true, w') /\
    rows (disk w') = [] /\
    fst (read_password_by_service "github" w') = Returned None.
Proof.
  destruct (delete_password_true_iff_removed "github" (vault_with [github_row] 9))
    as (b & w' & Hrun & Hb & Hafter).
  assert (Htrue : b = true) by (rewrite Hb; reflexivity).
  destruct (Hafter Htrue) as (Hrows & _ & Hread).
  exists w'. split; [rewrite Hrun, Htrue; reflexivity|]. split.
  - rewrite Hrows. reflexivity.
  - specialize (Hread no_faults).
    assert (Hw : w' = snd (delete_password "github" (vault_with [github_row] 9)))
      by (rewrite Hrun; reflexivity).
    rewrite Hw in Hread |- *. exact Hread.
Defined.

(* ================================================================== *)
(** ** Schema initialisation *)

Section Schema.

Variables (t : datetime) (d : database).

Lemma find_object_added (m : string) (o : sql_object) (r : list row) (q : Z) :
  find_object m (mkDatabase (schema d ++ [o]) r q) =
  match find_object m d with
  | Some x => Some x
  | None => if String.eqb (object_name o) m then Some o else None
  end.
Proof.
  unfold find_object. cbn [schema].
  induction (schema d) as [|x sch IH]; simpl.
  - destruct (String.eqb (object_name o) m); reflexivity.
  - destruct (String.eqb (object_name x) m); [reflexivity|exact IH].
Qed.

Lemma create_table_noop n cols :
  has_table n d = true ->
  run_statement t (CreateTableIfNotExists n cols) d = inr (d, mkCursor (-1) []).
Proof.
  unfold has_table, run_statement.
  destruct (find_object n d) as [[? ?|? ? ? ?]|]; intros H;
    try discriminate; reflexivity.
Qed.

Lemma create_index_noop n u tbl col :
  has_index n d = true ->
  run_statement t (CreateIndexIfNotExists n u tbl col) d = inr (d, mkCursor (-1) []).
Proof.
  unfold has_index, run_statement.
  destruct (find_object n d) as [[? ?|? ? ? ?]|]; intros H;
    try discriminate; reflexivity.
Qed.

Lemma create_table_inv n cols d' c :
  run_statement t (CreateTableIfNotExists n cols) d = inr (d', c) ->
  has_table n d' = true /\
  (forall m, has_index m d = true -> has_index m d' = true).
Proof.
  unfold run_statement.
  destruct (find_object n d) as [[? ?|? ? ? ?]|] eqn:Hn; intros H;
    inversion H; subst; clear H.
  - unfold has_table. rewrite Hn. auto.
  - split.
    + unfold has_table. rewrite find_object_added, Hn. simpl.
      rewrite String.eqb_refl. reflexivity.
    + intros m. unfold has_index. rewrite find_object_added.
      destruct (find_object m d) as [[? ?|? ? ? ?]|]; intros Hm;
        try discriminate; reflexivity.
Qed.

Lemma create_index_inv n u tbl col d' c :
  run_statement t (CreateIndexIfNotExists n u tbl col) d = inr (d', c) ->
  has_index n d' = true /\
  (forall m, has_table m d = true -> has_table m d' = true) /\
  (forall m, has_index m d = true -> has_index m d' = true).
Proof.
  unfold run_statement.
  destruct (find_object n d) as [[? ?|? ? ? ?]|] eqn:Hn; intros H.
  - discriminate.
  - inversion H; subst. unfold has_index. rewrite Hn. auto.
  - destruct (negb (has_table tbl d)); [discriminate|].
    destruct (u && _); [discriminate|].
    inversion H; subst; clear H. repeat split.
    + unfold has_index. rewrite find_object_added, Hn. simpl.
      rewrite String.eqb_refl. reflexivity.
    + intros m. unfold has_table. rewrite find_object_added.
      destruct (find_object m d) as [[? ?|? ? ? ?]|]; intros Hm;
        try discriminate; reflexivity.
    + intros m. unfold has_index. rewrite find_object_added.
      destruct (find_object m d) as [[? ?|? ? ? ?]|]; intros Hm;
        try discriminate; reflexivity.
Qed.

End Schema.

(** When the storage layer works, a call of [init_db] that returns leaves the
    table and both indexes in the schema. *)
Lemma init_db_initialises (w : world) :
  match init_db (quiet w) with
  | (Returned _, w1) => initialised (disk w1) = true /\ env w1 = no_faults
  | (Raised _, _) => True
  end.
Proof.
  destruct w as [d tx n c f l]. run_py; try exact I.
  repeat match goal with
  | H : run_statement _ (CreateTableIfNotExists _ _) _ = inr _ |- _ =>
      apply create_table_inv in H; destruct H as (? & ?)
  | H : run_statement _ (CreateIndexIfNotExists _ _ _ _) _ = inr _ |- _ =>
      apply create_index_inv in H; destruct H as (? & ? & ?)
  end.
  split; [|reflexivity].
  unfold initialised. repeat (apply andb_true_iff; split); auto.
Qed.

(** On an initialised file and a storage layer that works, [init_db] returns
    and writes nothing. *)
Lemma init_db_noop (w : world) :
  initialised (disk w) = true ->
  env w = no_faults ->
  exists w', init_db w = (Returned tt, w') /\ disk w' = disk w.
Proof.
  destruct w as [d tx n c f l]. cbn [disk env]. intros Hinit Hf. subst f.
  unfold initialised in Hinit.
  apply andb_true_iff in Hinit. destruct Hinit as [Hinit Hu].
  apply andb_true_iff in Hinit. destruct Hinit as [Ht Hs].
  unfold_py.
  change (run_statement c PragmaForeignKeysOn d) with
    (@inr Error (database * Cursor) (d, mkCursor (-1) [])).
  unfold_py.
  rewrite (create_table_noop c d _ _ Ht). unfold_py.
  rewrite (create_index_noop c d _ false passwords Service Hs). unfold_py.
  rewrite (create_index_noop c d _ false passwords Username Hu). unfold_py.
  eexists. split; reflexivity.
Qed.

Lemma create_index_rows t d n u tbl col d' c :
  run_statement t (CreateIndexIfNotExists n u tbl col) d = inr (d', c) ->
  rows d' = rows d /\ sequence d' = sequence d.
Proof.
  unfold run_statement.
  destruct (find_object n d) as [[? ?|? ? ? ?]|]; intros H.
  - discriminate.
  - inversion H; auto.
  - destruct (negb (has_table tbl d)); [discriminate|].
    destruct (u && _); [discriminate|].
    inversion H; auto.
Qed.

(** [init_db] leaves the rows of an existing table alone, whatever fails. *)
Lemma init_db_rows_kept (w : world) :
  has_table passwords (disk w) = true ->
  rows (disk (snd (init_db w))) = rows (disk w) /\
  sequence (disk (snd (init_db w))) = sequence (disk w).
Proof.
  destruct w as [d tx n c f l]. cbn [disk]. intros Ht.
  run_py;
    repeat match goal with
    | H : run_statement _ (CreateTableIfNotExists _ _) _ = _ |- _ =>
        rewrite (create_table_noop _ _ _ _ Ht) in H; inversion H; subst; clear H
    | H : run_statement _ (CreateIndexIfNotExists _ _ _ _) _ = inr _ |- _ =>
        apply create_index_rows in H; destruct H as [? ?]
    end;
    split; congruence.
Qed.

(** C8: schema initialisation is idempotent.  On a file that already has the
    table and both indexes, with a storage layer that works, [init_db]
    returns and leaves the file exactly as it was: schema, rows and counter.
    Whenever a call of [init_db] returned, the file is initialised, and a
    second call returns as well and leaves the file exactly as the first
    left it: no table or index is added and the rows are untouched.  And on
    any file that has the table, [init_db] leaves its rows as they were,
    whatever the storage layer does. *)
Theorem init_db_idempotent (w w1 : world) :
  (initialised (disk w) = true ->
   exists w', init_db (quiet w) = (Returned tt, w') /\ disk w' = disk w) /\
  (init_db (quiet w) = (Returned tt, w1) ->
   initialised (disk w1) = true /\
   exists w2, init_db w1 = (Returned tt, w2) /\ disk w2 = disk w1) /\
  (has_table passwords (disk w) = true ->
   rows (disk (snd (init_db w))) = rows (disk w)).
Proof.
  split; [|split].
  - intros Hinit.
    destruct (init_db_noop (quiet w)) as (w' & Hrun & Hdisk).
    + destruct w; exact Hinit.
    + destruct w; reflexivity.
    + exists w'. split; [exact Hrun|]. rewrite Hdisk. destruct w; reflexivity.
  - intros H. pose proof (init_db_initialises w) as Hi. rewrite H in Hi.
    destruct Hi as [Hinit Henv]. split; [exact Hinit|].
    apply init_db_noop; assumption.
  - intros Ht. apply init_db_rows_kept. exact Ht.
Qed.

(** A start on a vault that holds two rows: nothing changes; and a second
    start after the first on a machine without vault.db. *)
Lemma init_db_idempotent_witness :
  (exists w',
     init_db (vault_with [github_row; gitlab_row] 8) = (Returned tt, w') /\
     schema (disk w') = vault_schema /\
     rows (disk w') = [github_row; gitlab_row]) /\
  (exists w2,
     init_db (snd (init_db (fresh_world 0))) = (Returned tt, w2) /\
     schema (disk w2) = vault_schema /\ rows (disk w2) = []).
Proof.
  split.
  - destruct (init_db_idempotent (vault_with [github_row; gitlab_row] 8)
                                 (vault_with [github_row; gitlab_row] 8))
      as (Hnoop & _ & _).
    destruct (Hnoop eq_refl) as (w' & Hrun & Hdisk).
    exists w'. split; [exact Hrun|]. rewrite Hdisk. split; reflexivity.
  - destruct (init_db_idempotent (fresh_world 0) (snd (init_db (fresh_world 0))))
      as (_ & Hsecond & _).
    destruct (Hsecond eq_refl) as (_ & w2 & Hrun & Hdisk).
    exists w2. split; [exact Hrun|]. rewrite Hdisk. split; reflexivity.
Defined.

(* ================================================================== *)
(** ** The statements on the schema of [init_db] *)

Lemma has_table_schema (n : string) (d : database) (r : list row) (q : Z) :
  has_table n (mkDatabase (schema d) r q) = has_table n d.
Proof. reflexivity. Qed.

Lemma unique_columns_vault (l : list row) (q : Z) :
  unique_columns passwords (mkDatabase vault_schema l q) = [Id].
Proof. reflexivity. Qed.

Lemma max_rowid_bound (l : list row) (r : row) :
  In r l -> r_id r <= max_rowid l.
Proof.
  induction l as [|x l IH]; simpl; [tauto|].
  intros [H|H]; [subst; lia|]. specialize (IH H). lia.
Qed.

Lemma rowid_is_fresh (l : list row) (q : Z) :
  existsb (fun r => r_id r =? Z.max q (max_rowid l) + 1) l = false.
Proof.
  destruct (existsb _ l) eqn:H; [|reflexivity].
  apply existsb_exists in H. destruct H as (r & Hin & Heq).
  apply Z.eqb_eq in Heq. apply max_rowid_bound in Hin. lia.
Qed.

Lemma insert_on_vault (t : datetime) (sv us : string) (pw : bytes)
  (l : list row) (q : Z) :
  run_statement t (InsertInto sv us pw) (mkDatabase vault_schema l q) =
  if rowid_full (mkDatabase vault_schema l q)
  then inl OperationalError
  else inr (mkDatabase vault_schema
                       (l ++ [mkRow (Z.max q (max_rowid l) + 1) sv us pw t])
                       (Z.max q (max_rowid l) + 1),
            mkCursor 1 []).
Proof.
  unfold run_statement.
  change (has_table passwords (mkDatabase vault_schema l q)) with true.
  cbn [negb]. destruct (rowid_full (mkDatabase vault_schema l q)); [reflexivity|].
  rewrite unique_columns_vault. cbn [existsb cell r_id rows value_eqb].
  unfold next_rowid. cbn [sequence rows].
  rewrite rowid_is_fresh. reflexivity.
Qed.

Lemma update_on_vault (t : datetime) (sv us : string) (pw : bytes)
  (w : column * value) (l : list row) (q : Z) :
  run_statement t (UpdateSet sv us pw w) (mkDatabase vault_schema l q) =
  inr (mkDatabase vault_schema
                  (map (fun r => if matches w r then overwrite sv us pw r else r) l)
                  q,
       mkCursor (Z.of_nat (List.length (filter (matches w) l))) []).
Proof.
  unfold run_statement.
  change (has_table passwords (mkDatabase vault_schema l q)) with true.
  rewrite unique_columns_vault. cbn [negb existsb assigned andb orb rows schema sequence].
  rewrite andb_false_r. reflexivity.
Qed.

Lemma init_db_fresh (t : datetime) :
  init_db (fresh_world t) =
  (Returned tt, mkWorld (mkDatabase vault_schema [] 0) None 1 t no_faults [INFO]).
Proof. reflexivity. Qed.

Lemma create_password_on_vault (e : PasswordEntry) (l : list row) (q : Z)
  (tx : option database) (n : nat) (t : datetime) (lg : list level) :
  rowid_full (mkDatabase vault_schema l q) = false ->
  create_password e (mkWorld (mkDatabase vault_schema l q) tx n t no_faults lg) =
  (Returned true,
   mkWorld (mkDatabase vault_schema
              (l ++ [mkRow (Z.max q (max_rowid l) + 1) (service e) (username e)
                           (encrypted_password e) t])
              (Z.max q (max_rowid l) + 1))
           None (S n) t no_faults (lg ++ [SUCCESS])).
Proof.
  intros Hfree. unfold_py.
  change (run_statement t PragmaForeignKeysOn (mkDatabase vault_schema l q)) with
    (@inr Error (database * Cursor) (mkDatabase vault_schema l q, mkCursor (-1) [])).
  unfold_py. rewrite insert_on_vault, Hfree. unfold_py. reflexivity.
Qed.

Lemma create_password_on_full_vault (e : PasswordEntry) (l : list row) (q : Z)
  (tx : option database) (n : nat) (t : datetime) (lg : list level) :
  rowid_full (mkDatabase vault_schema l q) = true ->
  create_password e (mkWorld (mkDatabase vault_schema l q) tx n t no_faults lg) =
  (Returned false,
   mkWorld (mkDatabase vault_schema l q) None (S n) t no_faults (lg ++ [ERROR])).
Proof.
  intros Hfull. unfold_py.
  change (run_statement t PragmaForeignKeysOn (mkDatabase vault_schema l q)) with
    (@inr Error (database * Cursor) (mkDatabase vault_schema l q, mkCursor (-1) [])).
  unfold_py. rewrite insert_on_vault, Hfull. unfold_py. reflexivity.
Qed.

Lemma update_password_on_vault (s : string) (e : PasswordEntry) (l : list row)
  (q : Z) (tx : option database) (n : nat) (t : datetime) (lg : list level) :
  existsb (keyed s) l = true ->
  update_password s e (mkWorld (mkDatabase vault_schema l q) tx n t no_faults lg) =
  (Returned true,
   mkWorld (mkDatabase vault_schema
              (map (fun r => if keyed s r
                             then overwrite (service e) (username e)
                                            (encrypted_password e) r
                             else r) l)
              q)
           None (S n) t no_faults (lg ++ [INFO])).
Proof.
  intros Hs. unfold_py.
  change (run_statement t PragmaForeignKeysOn (mkDatabase vault_schema l q)) with
    (@inr Error (database * Cursor) (mkDatabase vault_schema l q, mkCursor (-1) [])).
  unfold_py. rewrite update_on_vault. unfold_py. cbn [rowcount].
  change (matches (Service, VText s)) with (keyed s).
  rewrite no_match_length, Hs. reflexivity.
Qed.

(** The scenario of the specification's section 8 with its own values: every
    write returns [True], the read after the rename finds nothing under the
    old key and the new values with the original [created_at] under the new
    key, and the vault is empty at the end. *)
Example end_to_end_run (t : datetime) :
  fst (end_to_end (fresh_world t)) =
  Returned (true,
            Some (mkPasswordEntry "github" "alice" [Byte.x01; Byte.x02] (Some t)),
            true,
            None,
            Some (mkPasswordEntry "github-new" "alice2" [Byte.x03] (Some t)),
            true,
            []).
Proof. reflexivity. Qed.

(** The interpreter does enforce a uniqueness the schema declares: with
    idx_service created as a UNIQUE index, the second INSERT of a key is an
    IntegrityError. *)
Example unique_index_rejects_second_insert :
  run_statement 7 (InsertInto "github" "bob" [Byte.x03])
    (mkDatabase [ Table passwords passwords_columns;
                  Index "idx_service" true passwords Service ]
                [github_row] 1)
  = inl IntegrityError.
Proof. reflexivity. Qed.

(* ================================================================== *)
(** ** Uniqueness of the service key *)

(** C1 (what the code does): the schema [init_db] creates declares
    uniqueness on [id] only, and two calls of [create_password] with the same
    service on a new vault both return [True] and leave two rows with that
    service. *)
Theorem create_twice_stores_service_twice
  (t : datetime) (s u1 u2 : string) (p1 p2 : bytes) :
  fst (create_twice (new_entry s u1 p1) (new_entry s u2 p2) (fresh_world t))
  = Returned (true, true) /\
  rows (disk (snd (create_twice (new_entry s u1 p1) (new_entry s u2 p2)
                                (fresh_world t))))
  = [mkRow 1 s u1 p1 t; mkRow 2 s u2 p2 t] /\
  unique_columns passwords
    (disk (snd (create_twice (new_entry s u1 p1) (new_entry s u2 p2)
                             (fresh_world t))))
  = [Id].
Proof.
  unfold create_twice, bind. rewrite init_db_fresh.
  rewrite create_password_on_vault by reflexivity.
  rewrite create_password_on_vault by reflexivity.
  repeat split.
Qed.

(** C2 (what the code does): on an initialised vault that already holds a
    row [r], with a storage layer that works, whether [create_password] of an
    entry with the service of [r] succeeds does not depend on that row: it
    returns [True] and appends a second row with that service, leaving the
    rows that were there unchanged, unless the table has used up its
    rowids, the one case in which the INSERT fails and nothing is written. *)
Theorem create_password_accepts_existing_service
  (l1 l2 : list row) (r : row) (q : Z) (tx : option database) (n : nat)
  (t : datetime) (lg : list level) (u : string) (p : bytes) :
  fst (create_password (new_entry (r_service r) u p)
         (mkWorld (mkDatabase vault_schema (l1 ++ r :: l2) q) tx n t no_faults lg))
  = Returned (negb (rowid_full (mkDatabase vault_schema (l1 ++ r :: l2) q))) /\
  rows (disk (snd (create_password (new_entry (r_service r) u p)
         (mkWorld (mkDatabase vault_schema (l1 ++ r :: l2) q) tx n t no_faults lg))))
  = (if rowid_full (mkDatabase vault_schema (l1 ++ r :: l2) q)
     then l1 ++ r :: l2
     else (l1 ++ r :: l2)
          ++ [mkRow (Z.max q (max_rowid (l1 ++ r :: l2)) + 1) (r_service r) u p t])%list.
Proof.
  destruct (rowid_full (mkDatabase vault_schema (l1 ++ r :: l2) q)) eqn:Hfull.
  - rewrite create_password_on_full_vault by exact Hfull. split; reflexivity.
  - rewrite create_password_on_vault by exact Hfull. split; reflexivity.
Qed.

(** On a vault that holds github with rowid 1, the second github is
    accepted. *)
Example second_github_is_accepted :
  fst (create_password github_bob (vault_with [github_row] 1700000300))
  = Returned true /\
  map r_service
      (rows (disk (snd (create_password github_bob
                          (vault_with [github_row] 1700000300)))))
  = ["github"; "github"].
Proof. split; reflexivity. Qed.

(* ================================================================== *)
(** ** Create, then read *)

Lemma find_after (p : row -> bool) (l1 l2 : list row) :
  existsb p l1 = false -> find p (l1 ++ l2) = find p l2.
Proof.
  induction l1 as [|x l1 IH]; simpl; [reflexivity|].
  intros H. apply orb_false_iff in H. destruct H as [Hx Hl].
  rewrite Hx. auto.
Qed.

Lemma create_password_true (w : world) (e : PasswordEntry) :
  fst (create_password e w) = Returned true ->
  has_table passwords (disk w) = true /\
  disk (snd (create_password e w)) =
  mkDatabase (schema (disk w))
             (rows (disk w)
              ++ [mkRow (next_rowid (disk w)) (service e) (username e)
                        (encrypted_password e) (now w)])
             (next_rowid (disk w)).
Proof.
  destruct w as [d tx n c f l]. run_py; settle_table.
  intros _. split; reflexivity.
Qed.

(** C3: in a state with no row for the service of [e], when
    [create_password e] returned [True], [read_password_by_service] of that
    service (on a storage layer that works) returns an entry with the
    service, username and encrypted password of [e], byte for byte, and with
    [created_at] set: to the time of the insert. *)
Theorem create_then_read_by_service (w w' : world) (e : PasswordEntry) :
  existsb (keyed (service e)) (rows (disk w)) = false ->
  create_password e w = (Returned true, w') ->
  fst (read_password_by_service (service e) (quiet w')) =
  Returned (Some (mkPasswordEntry (service e) (username e) (encrypted_password e)
                                  (Some (now w)))).
Proof.
  intros Hnew Hrun.
  assert (Hw : w' = snd (create_password e w)) by (rewrite Hrun; reflexivity).
  destruct (create_password_true w e) as [Htable Hdisk];
    [rewrite Hrun; reflexivity|].
  rewrite <- Hw in Hdisk.
  rewrite read_password_by_service_result.
  replace (read_ok (SelectFrom (Some (Service, VText (service e)))) (quiet w'))
    with true.
  - replace (disk (quiet w')) with (disk w') by (destruct w'; reflexivity).
    rewrite Hdisk. cbn [rows]. rewrite (find_after _ _ _ Hnew).
    cbn [find]. unfold keyed at 1. cbn [r_service].
    rewrite String.eqb_refl. reflexivity.
  - unfold read_ok, works, quiet, set_env, no_faults. cbn [env disk andb].
    rewrite Hdisk, has_table_schema, Htable. reflexivity.
Qed.

(** A first entry for github in a vault that holds gitlab. *)
Lemma create_then_read_by_service_witness :
  fst (read_password_by_service "github"
         (quiet (snd (create_password github (vault_with [gitlab_row] 1700000100)))))
  = Returned (Some (mkPasswordEntry "github" "alice" [Byte.x01; Byte.x02]
                                    (Some 1700000100))).
Proof.
  apply (create_then_read_by_service (vault_with [gitlab_row] 1700000100)
           (snd (create_password github (vault_with [gitlab_row] 1700000100)))
           github); reflexivity.
Defined.

(* ================================================================== *)
(** ** Update *)

Lemma existsb_split (p : row -> bool) (l1 l2 : list row) :
  existsb p (l1 ++ l2) = false -> existsb p l1 = false /\ existsb p l2 = false.
Proof.
  rewrite existsb_app. apply orb_false_iff.
Qed.

Lemma run_pair {A} (m : M A) (w : world) : m w = (fst (m w), snd (m w)).
Proof. destruct (m w); reflexivity. Qed.

(** C4, as amended: on an initialised vault where [r] is the only row keyed
    by [s] and no other row is keyed by the service of [e], with a storage
    layer that works, [update_password s e] returns [True], overwrites the
    service, username and encrypted password of [r] with those of [e] and
    leaves its [created_at] (and every other row) as it was, and
    [read_password_by_service] of the new service then returns the username
    and encrypted password of [e] with the [created_at] of [r]. *)
Theorem update_password_overwrites_in_place
  (w : world) (s : string) (e : PasswordEntry) (r : row) (l1 l2 : list row) :
  schema (disk w) = vault_schema ->
  rows (disk w) = (l1 ++ r :: l2)%list ->
  r_service r = s ->
  existsb (keyed s) (l1 ++ l2) = false ->
  existsb (keyed (service e)) (l1 ++ l2) = false ->
  update_then_read w s e r.
Proof.
  destruct w as [[sch rws q] tx n c f lg]. cbn [disk schema rows].
  intros Hsch Hrows Hr Hs He. subst sch rws.
  apply existsb_split in Hs. destruct Hs as [Hs1 Hs2].
  apply existsb_split in He. destruct He as [He1 He2].
  assert (Hkey : keyed s r = true) by (unfold keyed; rewrite Hr; apply String.eqb_refl).
  unfold update_then_read, quiet, set_env. cbn [disk txn open_conns now env log].
  rewrite update_password_on_vault
    by (rewrite existsb_app; cbn [existsb]; rewrite Hkey, orb_true_r; reflexivity).
  eexists. eexists. split; [reflexivity|]. cbn [disk rows]. split; [reflexivity|].
  rewrite run_pair at 1. f_equal.
  rewrite read_password_by_service_result.
  cbn [disk rows]. rewrite map_app. cbn [map]. rewrite Hkey.
  rewrite (map_no_match _ _ _ Hs1), (map_no_match _ _ _ Hs2).
  rewrite (find_after _ _ _ He1). cbn [find]. unfold keyed at 1, overwrite.
  cbn [r_service]. rewrite String.eqb_refl. reflexivity.
Qed.

(** Renaming gitlab to bitbucket in a vault that also holds github. *)
Lemma update_password_overwrites_in_place_witness :
  update_then_read (vault_with [github_row; gitlab_row] 1700000100) "gitlab"
                   (new_entry "bitbucket" "dave" [Byte.x05]) gitlab_row.
Proof.
  apply (update_password_overwrites_in_place
           (vault_with [github_row; gitlab_row] 1700000100) "gitlab"
           (new_entry "bitbucket" "dave" [Byte.x05]) gitlab_row
           [github_row] []); reflexivity.
Defined.

(** C4, as stated, fails: renaming gitlab to github in a vault that already
    holds github.  The update returns [True] and both rows are now keyed
    github; the read of github returns the older row, with alice and her
    password, not the values just written. *)
Lemma update_then_read_fails_on_taken_service :
  schema (disk (vault_with [github_row; gitlab_row] 1700000100)) = vault_schema /\
  In gitlab_row (rows (disk (vault_with [github_row; gitlab_row] 1700000100))) /\
  r_service gitlab_row = "gitlab" /\
  ~ update_then_read (vault_with [github_row; gitlab_row] 1700000100) "gitlab"
                     (new_entry "github" "dave" [Byte.x05]) gitlab_row.
Proof.
  split; [reflexivity|]. split; [right; left; reflexivity|]. split; [reflexivity|].
  intros (w' & w'' & Hrun & _ & Hread).
  assert (Hw : w' = snd (update_password "gitlab" (new_entry "github" "dave" [Byte.x05])
                           (quiet (vault_with [github_row; gitlab_row] 1700000100))))
    by (rewrite Hrun; reflexivity).
  subst w'. apply (f_equal fst) in Hread. vm_compute in Hread. discriminate Hread.
Qed.

(* ================================================================== *)
(** ** The connection *)

(** X3: [get_connection] never writes to the file and opens one handle
    whenever [sqlite3.connect] succeeds, also when the PRAGMA then fails.  It
    raises exactly when connect or the PRAGMA fails, with that error and one
    CRITICAL line; when it returns it has logged nothing. *)
Theorem get_connection_outcome (w : world) :
  disk (snd (get_connection w)) = disk w /\
  open_conns (snd (get_connection w)) = (open_conns w + connects w)%nat /\
  match fst (get_connection w) with
  | Returned _ =>
      connection_fails w = false /\ log (snd (get_connection w)) = log w
  | Raised e =>
      (env w AtConnect = Some e \/
       (env w AtConnect = None /\ env w (AtExecute PragmaForeignKeysOn) = Some e)) /\
      log (snd (get_connection w)) = (log w ++ [CRITICAL])%list
  end.
Proof.
  destruct w as [d tx n c f l]. unfold connection_fails.
  split; [|split]; run_py; auto; lia.
Qed.

(* ================================================================== *)
(** ** More on schema initialisation *)

Ltac use_schema_facts :=
  repeat match goal with
  | H : run_statement _ (CreateTableIfNotExists _ _) _ = inr _ |- _ =>
      apply create_table_inv in H; destruct H as (? & ?)
  | H : run_statement _ (CreateIndexIfNotExists _ _ _ _) _ = inr _ |- _ =>
      apply create_index_inv in H; destruct H as (? & ? & ?)
  end.

Lemma init_db_post (w : world) :
  match init_db w with
  | (Returned _, w1) => initialised (disk w1) = true
  | (Raised _, _) => True
  end.
Proof.
  destruct w as [d tx n c f l]. run_py; try exact I.
  use_schema_facts.
  unfold initialised. repeat (apply andb_true_iff; split); auto.
Qed.

(** X4: whenever [init_db] returns, whatever the file held before, the table
    passwords and the indexes idx_service and idx_username are in the
    schema. *)
Theorem init_db_establishes_schema (w w' : world) :
  init_db w = (Returned tt, w') -> initialised (disk w') = true.
Proof.
  intros H. pose proof (init_db_post w) as P. rewrite H in P. exact P.
Qed.

Lemma init_db_establishes_schema_witness :
  initialised (disk (snd (init_db (fresh_world 3)))) = true.
Proof.
  apply (init_db_establishes_schema (fresh_world 3)). reflexivity.
Defined.

(** X5: [init_db] never touches the rows of an existing table: when the file
    already has the table passwords, its rows and its AUTOINCREMENT counter
    are the same after the call, whether the call returns or raises. *)
Theorem init_db_keeps_rows (w : world) :
  has_table passwords (disk w) = true ->
  rows (disk (snd (init_db w))) = rows (disk w) /\
  sequence (disk (snd (init_db w))) = sequence (disk w).
Proof. apply init_db_rows_kept. Qed.

Lemma init_db_keeps_rows_witness :
  rows (disk (snd (init_db (vault_with [github_row; gitlab_row] 8))))
  = [github_row; gitlab_row].
Proof.
  apply (init_db_keeps_rows (vault_with [github_row; gitlab_row] 8)). reflexivity.
Defined.

(** X6: on a file without any schema object and a storage layer that works,
    [init_db] returns and leaves exactly the table and the two indexes, in
    this order, and an empty table. *)
Theorem init_db_on_bare_file (w : world) :
  schema (disk w) = [] ->
  fst (init_db (quiet w)) = Returned tt /\
  schema (disk (snd (init_db (quiet w)))) = vault_schema /\
  rows (disk (snd (init_db (quiet w)))) = [].
Proof.
  destruct w as [[sch r q] tx n c f l]. cbn [disk schema]. intros H. subst sch.
  repeat split.
Qed.

Lemma init_db_on_bare_file_witness :
  schema (disk (snd (init_db (quiet (fresh_world 0))))) = vault_schema.
Proof.
  apply (init_db_on_bare_file (fresh_world 0)). reflexivity.
Defined.

(** X7: [init_db] is not all-or-nothing.  On a file without schema, when only
    CREATE INDEX idx_username fails, [init_db] raises that error and the
    table and idx_service stay in the file; a later call on a storage layer
    that works returns and completes the schema. *)
Theorem init_db_failure_is_partial
  (r : list row) (q : Z) (tx : option database) (n : nat) (t : datetime)
  (lg : list level) (e : Error) :
  fst (init_db (mkWorld (mkDatabase [] r q) tx n t (username_index_fails e) lg))
  = Raised e /\
  schema (disk (snd (init_db
    (mkWorld (mkDatabase [] r q) tx n t (username_index_fails e) lg))))
  = [ Table passwords passwords_columns;
      Index "idx_service" false passwords Service ] /\
  fst (init_db (quiet (snd (init_db
    (mkWorld (mkDatabase [] r q) tx n t (username_index_fails e) lg)))))
  = Returned tt /\
  schema (disk (snd (init_db (quiet (snd (init_db
    (mkWorld (mkDatabase [] r q) tx n t (username_index_fails e) lg)))))))
  = vault_schema.
Proof. repeat split. Qed.

(** X8: the module body: importing database.py ends as [init_db] ends: it
    returns when [init_db] returns and raises the error [init_db] raises,
    with the file as [init_db] left it; when [init_db] raised, one more
    CRITICAL line is logged.  So the import returns only with an initialised
    file. *)
Theorem import_module_outcome (w : world) :
  fst (import_module w) = fst (init_db w) /\
  disk (snd (import_module w)) = disk (snd (init_db w)) /\
  log (snd (import_module w)) =
    (log (snd (init_db w))
     ++ match fst (init_db w) with
        | Returned _ => []
        | Raised _ => [CRITICAL]
        end)%list /\
  match fst (import_module w) with
  | Returned _ => initialised (disk (snd (import_module w))) = true
  | Raised _ => True
  end.
Proof.
  pose proof (init_db_post w) as P.
  unfold import_module, try_except, bind, logger, raise.
  destruct (init_db w) as [[u|e] w1]; cbn [fst snd].
  - rewrite app_nil_r. auto.
  - destruct w1; cbn [disk log]. auto.
Qed.

(** X9: no CRUD operation changes the schema, whatever happens. *)
Theorem crud_preserves_schema (w : world) (e : PasswordEntry) (s u : string) :
  schema (disk (snd (create_password e w))) = schema (disk w) /\
  schema (disk (snd (read_all_passwords w))) = schema (disk w) /\
  schema (disk (snd (read_password_by_service s w))) = schema (disk w) /\
  schema (disk (snd (read_password_by_username u w))) = schema (disk w) /\
  schema (disk (snd (update_password s e w))) = schema (disk w) /\
  schema (disk (snd (delete_password s w))) = schema (disk w).
Proof.
  destruct w as [d tx n c f l].
  repeat split; run_py; settle_table.
Qed.

(* ================================================================== *)
(** ** Invariants of the table *)

Lemma increasing_snoc (l : list Z) (y : Z) :
  increasing l = true ->
  forallb (fun x => x <? y) l = true ->
  increasing (l ++ [y]) = true.
Proof.
  induction l as [|x l IH]; simpl; [reflexivity|].
  intros H1 H2.
  apply andb_true_iff in H1. destruct H1 as [Hx Hl].
  apply andb_true_iff in H2. destruct H2 as [Hy Hr].
  rewrite forallb_app, Hx, IH by assumption. simpl. rewrite Hy. reflexivity.
Qed.

Lemma forallb_ids_filter (q : Z -> bool) (p : row -> bool) (l : list row) :
  forallb q (map r_id l) = true -> forallb q (map r_id (filter p l)) = true.
Proof.
  induction l as [|r l IH]; simpl; [reflexivity|].
  intros H. apply andb_true_iff in H. destruct H as [Hr Hl].
  destruct (p r); simpl; [rewrite Hr|]; auto.
Qed.

Lemma increasing_filter (p : row -> bool) (l : list row) :
  increasing (map r_id l) = true -> increasing (map r_id (filter p l)) = true.
Proof.
  induction l as [|r l IH]; simpl; [reflexivity|].
  intros H. apply andb_true_iff in H. destruct H as [Hr Hl].
  destruct (p r); simpl; [|auto].
  rewrite forallb_ids_filter, IH by assumption. reflexivity.
Qed.

Lemma ids_of_update (p : row -> bool) (sv us : string) (pw : bytes) (l : list row) :
  map r_id (map (fun r => if p r then overwrite sv us pw r else r) l) = map r_id l.
Proof.
  induction l as [|r l IH]; simpl; [reflexivity|].
  rewrite IH. destruct (p r); reflexivity.
Qed.

Lemma stamps_of_update (p : row -> bool) (sv us : string) (pw : bytes) (l : list row) :
  map stamp (map (fun r => if p r then overwrite sv us pw r else r) l) = map stamp l.
Proof.
  induction l as [|r l IH]; simpl; [reflexivity|].
  rewrite IH. destruct (p r); reflexivity.
Qed.

Lemma bounded_as_ids (b : Z) (l : list row) :
  forallb (fun r => r_id r <=? b) l = forallb (fun x => x <=? b) (map r_id l).
Proof.
  induction l as [|r l IH]; simpl; [reflexivity|]. rewrite IH. reflexivity.
Qed.

Lemma bounded_weaken (b b' : Z) (l : list row) :
  b <= b' ->
  forallb (fun r => r_id r <=? b) l = true ->
  forallb (fun r => r_id r <=? b') l = true.
Proof.
  intros Hb H. apply forallb_forall. intros r Hr.
  rewrite forallb_forall in H. specialize (H r Hr).
  apply Z.leb_le in H. apply Z.leb_le. lia.
Qed.

Lemma below_next (b : Z) (l : list row) :
  forallb (fun r => r_id r <=? b) l = true ->
  forallb (fun x => x <? b + 1) (map r_id l) = true.
Proof.
  intros H. apply forallb_forall. intros x Hx.
  apply in_map_iff in Hx. destruct Hx as (r & Hr & Hin). subst x.
  rewrite forallb_forall in H. specialize (H r Hin).
  apply Z.leb_le in H. apply Z.ltb_lt. lia.
Qed.

Lemma max_rowid_bounds (l : list row) :
  forallb (fun r => r_id r <=? max_rowid l) l = true.
Proof.
  apply forallb_forall. intros r Hr. apply Z.leb_le. apply max_rowid_bound. exact Hr.
Qed.

(** Every statement of [database.py] keeps the rowids in order and under the
    counter. *)
Lemma statement_keeps_ids (t : datetime) (s : statement) (d d' : database) (c : Cursor) :
  ids_ok d = true ->
  run_statement t s d = inr (d', c) ->
  ids_ok d' = true.
Proof.
  intros Hok. unfold ids_ok in Hok.
  apply andb_true_iff in Hok. destruct Hok as [Hinc Hbound].
  destruct s; unfold run_statement.
  - intros H; inversion H; subst. unfold ids_ok. rewrite Hinc, Hbound. reflexivity.
  - destruct (find_object name d) as [[? ?|? ? ? ?]|]; intros H; inversion H; subst.
    + unfold ids_ok. rewrite Hinc, Hbound. reflexivity.
    + unfold ids_ok. cbn [rows sequence].
      destruct (String.eqb name passwords); [reflexivity|].
      rewrite Hinc, Hbound. reflexivity.
  - destruct (find_object name d) as [[? ?|? ? ? ?]|]; [discriminate| |].
    + intros H; inversion H; subst. unfold ids_ok. rewrite Hinc, Hbound. reflexivity.
    + destruct (negb (has_table table d)); [discriminate|].
      destruct (uniq && _); [discriminate|].
      intros H; inversion H; subst. unfold ids_ok. cbn [rows sequence].
      rewrite Hinc, Hbound. reflexivity.
  - destruct (negb (has_table passwords d)); [discriminate|].
    destruct (rowid_full d); [discriminate|].
    destruct (existsb _ _); [discriminate|].
    intros H; inversion H; subst. unfold ids_ok. cbn [rows sequence r_id].
    assert (Hall : forallb (fun r => r_id r <=? Z.max (sequence d) (max_rowid (rows d)))
                           (rows d) = true)
      by (apply (bounded_weaken (max_rowid (rows d))); [lia|apply max_rowid_bounds]).
    unfold next_rowid. apply andb_true_iff. split.
    + rewrite map_app. cbn [map r_id]. apply increasing_snoc; [assumption|].
      apply below_next. exact Hall.
    + rewrite forallb_app. cbn [forallb r_id].
      rewrite (bounded_weaken (Z.max (sequence d) (max_rowid (rows d)))
                 (Z.max (sequence d) (max_rowid (rows d)) + 1) (rows d))
        by (lia || exact Hall).
      rewrite Z.leb_refl. reflexivity.
  - destruct (negb (has_table passwords d)); [discriminate|].
    intros H; inversion H; subst. unfold ids_ok. rewrite Hinc, Hbound. reflexivity.
  - destruct (negb (has_table passwords d)); [discriminate|].
    destruct (_ && _); [discriminate|].
    intros H; inversion H; subst. unfold ids_ok. cbn [rows sequence].
    rewrite bounded_as_ids, ids_of_update, <- bounded_as_ids.
    rewrite Hinc, Hbound. reflexivity.
  - destruct (negb (has_table passwords d)); [discriminate|].
    intros H; inversion H; subst. unfold ids_ok. cbn [rows sequence].
    rewrite increasing_filter by assumption.
    rewrite bounded_as_ids, forallb_ids_filter; [reflexivity|].
    rewrite <- bounded_as_ids. exact Hbound.
Qed.

Ltac chain_ids :=
  repeat match goal with
  | Hi : ids_ok ?d = true, H : run_statement _ _ ?d = inr (?d', _) |- _ =>
      pose proof (statement_keeps_ids _ _ _ _ _ Hi H); clear H
  | H : run_statement _ PragmaForeignKeysOn _ = _ |- _ => clear H
  end.

Lemma unused_filter (x : Z) (p : row -> bool) (l : list row) :
  unused x l = true -> unused x (filter p l) = true.
Proof.
  unfold unused. induction l as [|r l IH]; simpl; [reflexivity|].
  intros H. apply andb_true_iff in H. destruct H as [Hr Hl].
  destruct (p r); simpl; [rewrite Hr|]; auto.
Qed.

Lemma unused_update (x : Z) (p : row -> bool) (sv us : string) (pw : bytes)
  (l : list row) :
  unused x (map (fun r => if p r then overwrite sv us pw r else r) l) = unused x l.
Proof.
  unfold unused. induction l as [|r l IH]; simpl; [reflexivity|].
  rewrite IH. destruct (p r); reflexivity.
Qed.

(** A rowid at or under the counter that no row has stays so through every
    statement: the only statement that hands out a rowid hands out one above
    the counter. *)
Lemma statement_keeps_retired (t : datetime) (s : statement) (d d' : database)
  (c : Cursor) (x : Z) :
  x <= sequence d -> unused x (rows d) = true ->
  run_statement t s d = inr (d', c) ->
  x <= sequence d' /\ unused x (rows d') = true.
Proof.
  intros Hx Hu.
  destruct s; unfold run_statement.
  - intros H; inversion H; subst. auto.
  - destruct (find_object name d) as [[? ?|? ? ? ?]|]; intros H; inversion H; subst.
    + auto.
    + cbn [rows sequence]. destruct (String.eqb name passwords); auto.
  - destruct (find_object name d) as [[? ?|? ? ? ?]|]; [discriminate| |].
    + intros H; inversion H; subst. auto.
    + destruct (negb (has_table table d)); [discriminate|].
      destruct (uniq && _); [discriminate|].
      intros H; inversion H; subst. auto.
  - destruct (negb (has_table passwords d)); [discriminate|].
    destruct (rowid_full d); [discriminate|].
    destruct (existsb _ _); [discriminate|].
    intros H; inversion H; subst. cbn [rows sequence r_id]. unfold next_rowid.
    split; [lia|].
    unfold unused in *. rewrite forallb_app, Hu. cbn [forallb r_id].
    replace (Z.max (sequence d) (max_rowid (rows d)) + 1 =? x) with false;
      [reflexivity|].
    symmetry. apply Z.eqb_neq. lia.
  - destruct (negb (has_table passwords d)); [discriminate|].
    intros H; inversion H; subst. auto.
  - destruct (negb (has_table passwords d)); [discriminate|].
    destruct (_ && _); [discriminate|].
    intros H; inversion H; subst. cbn [rows sequence].
    rewrite unused_update. auto.
  - destruct (negb (has_table passwords d)); [discriminate|].
    intros H; inversion H; subst. cbn [rows sequence].
    split; [assumption|]. apply unused_filter. exact Hu.
Qed.

Ltac chain_retired :=
  repeat match goal with
  | Hx : ?x <= sequence ?d, Hu : unused ?x (rows ?d) = true,
    H : run_statement _ _ ?d = inr (?d', _) |- _ =>
      destruct (statement_keeps_retired _ _ _ _ _ _ Hx Hu H); clear H
  | H : run_statement _ PragmaForeignKeysOn _ = _ |- _ => clear H
  end.

Lemma call_keeps_ids (c : call) (w : world) :
  ids_ok (disk w) = true -> ids_ok (disk (after c w)) = true.
Proof.
  destruct w as [d tx n t f l]. cbn [disk]. intros Hok.
  destruct c; unfold after; run_py; chain_ids; assumption.
Qed.

Lemma call_keeps_retired (c : call) (w : world) (x : Z) :
  x <= sequence (disk w) -> unused x (rows (disk w)) = true ->
  x <= sequence (disk (after c w)) /\ unused x (rows (disk (after c w))) = true.
Proof.
  destruct w as [d tx n t f l]. cbn [disk]. intros Hx Hu.
  destruct c; unfold after; run_py; chain_retired; auto.
Qed.

Lemma history_keeps_ids (h : list (datetime * faults * call)) (w : world) :
  ids_ok (disk w) = true -> ids_ok (disk (after_all h w)) = true.
Proof.
  revert w. induction h as [|[[t f] c] h IH]; intros w Hok; [exact Hok|].
  cbn [after_all]. apply IH. apply call_keeps_ids. destruct w; exact Hok.
Qed.

Lemma history_keeps_retired (h : list (datetime * faults * call)) (w : world) (x : Z) :
  x <= sequence (disk w) -> unused x (rows (disk w)) = true ->
  unused x (rows (disk (after_all h w))) = true.
Proof.
  revert w. induction h as [|[[t f] c] h IH]; intros w Hx Hu; [exact Hu|].
  cbn [after_all].
  destruct (call_keeps_retired c (at_moment t f w) x) as [Hx' Hu'];
    try (destruct w; assumption).
  apply IH; assumption.
Qed.

Lemma increasing_NoDup (l : list Z) : increasing l = true -> NoDup l.
Proof.
  induction l as [|x l IH]; simpl; [constructor|].
  intros H. apply andb_true_iff in H. destruct H as [Hx Hl].
  constructor; [|auto].
  intros Hin. rewrite forallb_forall in Hx. specialize (Hx x Hin).
  apply Z.ltb_lt in Hx. lia.
Qed.

Lemma ids_under_counter (d : database) (r : row) :
  ids_ok d = true -> In r (rows d) -> r_id r <= sequence d.
Proof.
  unfold ids_ok. intros H Hin. apply andb_true_iff in H. destruct H as [_ Hb].
  rewrite forallb_forall in Hb. apply Z.leb_le. apply Hb. exact Hin.
Qed.

Lemma delete_retires (s : string) (w : world) (r : row) :
  ids_ok (disk w) = true ->
  In r (rows (disk w)) -> keyed s r = true ->
  fst (delete_password s w) = Returned true ->
  r_id r <= sequence (disk (snd (delete_password s w))) /\
  unused (r_id r) (rows (disk (snd (delete_password s w)))) = true.
Proof.
  intros Hok Hin Hkey Htrue.
  pose proof (delete_password_result s w) as Hb. rewrite Htrue in Hb.
  inversion Hb as [Hb']. symmetry in Hb'.
  apply andb_true_iff in Hb'. destruct Hb' as [Hwo _].
  rewrite delete_password_disk, Hwo. cbn [rows sequence].
  split; [apply ids_under_counter; assumption|].
  unfold ids_ok in Hok. apply andb_true_iff in Hok. destruct Hok as [Hinc _].
  clear - Hin Hkey Hinc.
  induction (rows (disk w)) as [|y l IH]; [destruct Hin|].
  cbn [map increasing] in Hinc. apply andb_true_iff in Hinc.
  destruct Hinc as [Hy Hl]. cbn [filter].
  assert (Hleft : forall z, In z l -> r_id y < r_id z).
  { intros z Hz. rewrite forallb_forall in Hy.
    apply Z.ltb_lt. apply Hy. apply in_map. exact Hz. }
  destruct Hin as [Heq|Hin].
  - subst y. rewrite Hkey. cbn [negb].
    apply unused_filter. unfold unused. apply forallb_forall. intros z Hz.
    specialize (Hleft z Hz). apply negb_true_iff. apply Z.eqb_neq. lia.
  - specialize (Hleft r Hin).
    destruct (negb (keyed s y)).
    + unfold unused. cbn [forallb]. fold (unused (r_id r)
        (filter (fun r0 => negb (keyed s r0)) l)).
      rewrite (IH Hl Hin).
      replace (r_id y =? r_id r) with false; [reflexivity|].
      symmetry. apply Z.eqb_neq. lia.
    + apply IH; assumption.
Qed.

(** X10: the primary key stays a key, and a rowid is used once.  Along every
    history of calls of [init_db] and the CRUD functions, at any times and
    whatever fails: when the rowids increase along the table and none
    exceeds the AUTOINCREMENT counter, the same holds at the end, so no two
    rows share an id; a rowid at or under the counter that no row has is
    never handed out; and so the rowid of a row that [delete_password]
    removed is the rowid of no row ever after. *)
Theorem rowids_stay_distinct
  (w : world) (h : list (datetime * faults * call)) :
  ids_ok (disk w) = true ->
  ids_ok (disk (after_all h w)) = true /\
  NoDup (map r_id (rows (disk (after_all h w)))) /\
  (forall x, x <= sequence (disk w) -> unused x (rows (disk w)) = true ->
             forall r', In r' (rows (disk (after_all h w))) -> r_id r' <> x) /\
  (forall s r, In r (rows (disk w)) -> keyed s r = true ->
               fst (delete_password s w) = Returned true ->
               forall r', In r' (rows (disk (after_all h (snd (delete_password s w)))))
                          -> r_id r' <> r_id r).
Proof.
  intros Hok.
  assert (Hnever : forall w0 x, x <= sequence (disk w0) ->
            unused x (rows (disk w0)) = true ->
            forall r', In r' (rows (disk (after_all h w0))) -> r_id r' <> x).
  { intros w0 x Hx Hu r' Hin.
    pose proof (history_keeps_retired h w0 x Hx Hu) as Hend.
    unfold unused in Hend. rewrite forallb_forall in Hend.
    specialize (Hend r' Hin). apply negb_true_iff in Hend.
    apply Z.eqb_neq. exact Hend. }
  split; [apply history_keeps_ids; exact Hok|].
  split.
  - apply increasing_NoDup.
    pose proof (history_keeps_ids h w Hok) as Hend. unfold ids_ok in Hend.
    apply andb_true_iff in Hend. tauto.
  - split; [apply Hnever|].
    intros s r Hin Hkey Htrue.
    destruct (delete_retires s w r Hok Hin Hkey Htrue) as [Hx Hu].
    apply Hnever; assumption.
Qed.

(** Delete gitlab (rowid 2), then create two entries: they get rowids 3 and
    4, and rowid 2 is not used again. *)
Lemma rowids_stay_distinct_witness :
  map r_id
      (rows (disk (after_all [(9, no_faults, Create github_bob);
                              (10, no_faults, Create github)]
                             (snd (delete_password "gitlab"
                                     (vault_with [github_row; gitlab_row] 5))))))
  = [1; 3; 4] /\
  forall r',
    In r' (rows (disk (after_all [(9, no_faults, Create github_bob);
                                  (10, no_faults, Create github)]
                                 (snd (delete_password "gitlab"
                                         (vault_with [github_row; gitlab_row] 5))))))
    -> r_id r' <> 2.
Proof.
  split; [reflexivity|].
  destruct (rowids_stay_distinct (vault_with [github_row; gitlab_row] 5)
              [(9, no_faults, Create github_bob); (10, no_faults, Create github)]
              eq_refl) as (_ & _ & _ & Hdel).
  apply (Hdel "gitlab" gitlab_row); [right; left; reflexivity|reflexivity|reflexivity].
Defined.

(* ================================================================== *)
(** ** The creation time *)

Lemma stamps_of_filter (p : row -> bool) (l : list row) (x : Z * datetime) :
  In x (map stamp (filter p l)) -> In x (map stamp l).
Proof.
  intros H. apply in_map_iff in H. destruct H as (r & Hr & Hin).
  apply filter_In in Hin. apply in_map_iff. exists r. tauto.
Qed.

(** X11: no write ever rewrites a creation time.  [update_password] leaves
    the list of (id, created_at) pairs of the table exactly as it was; after
    [delete_password] every pair was there before; after [create_password]
    every pair was there before or is the new row's, stamped with the time
    of the call.  All of this whatever fails. *)
Theorem created_at_is_never_rewritten (w : world) (e : PasswordEntry) (s : string) :
  map stamp (rows (disk (snd (update_password s e w)))) = map stamp (rows (disk w)) /\
  (forall x, In x (map stamp (rows (disk (snd (delete_password s w))))) ->
             In x (map stamp (rows (disk w)))) /\
  (forall x, In x (map stamp (rows (disk (snd (create_password e w))))) ->
             In x (map stamp (rows (disk w))) \/ x = (next_rowid (disk w), now w)).
Proof.
  destruct w as [d tx n c f l]. split; [|split].
  - run_py; settle_table; cbn [rows]; apply stamps_of_update.
  - intros x. run_py; settle_table; auto; cbn [rows]; apply stamps_of_filter.
  - intros x. run_py; settle_table; auto.
    all: cbn [rows]; rewrite map_app, in_app_iff;
      cbn [map stamp r_id r_created_at In]; intros [Hx|[Hx|[]]]; auto.
Qed.

Lemma created_at_is_never_rewritten_witness :
  In (2, 1700000050)
     (map stamp (rows (disk (vault_with [github_row; gitlab_row] 1700000200)))).
Proof.
  destruct (created_at_is_never_rewritten
              (vault_with [github_row; gitlab_row] 1700000200) github "github")
    as (_ & Hdel & _).
  apply Hdel. vm_compute. left. reflexivity.
Defined.

(* ================================================================== *)
(** ** More on create *)

(** X12: when [create_password] returns [True] the table is the old table
    followed by one new row: the three values of the entry, the time of the
    call as [created_at] (whatever [created_at] the entry carried), and an id
    above every id in the table and above the AUTOINCREMENT counter. *)
Theorem create_password_appends_one_row (w w' : world) (e : PasswordEntry) :
  create_password e w = (Returned true, w') ->
  rows (disk w') =
    (rows (disk w)
     ++ [mkRow (next_rowid (disk w)) (service e) (username e)
               (encrypted_password e) (now w)])%list /\
  sequence (disk w) < next_rowid (disk w) /\
  forall r, In r (rows (disk w)) -> r_id r < next_rowid (disk w).
Proof.
  intros Hrun.
  assert (Hw : w' = snd (create_password e w)) by (rewrite Hrun; reflexivity).
  destruct (create_password_true w e) as [_ Hdisk]; [rewrite Hrun; reflexivity|].
  rewrite <- Hw in Hdisk. rewrite Hdisk. cbn [rows].
  split; [reflexivity|]. unfold next_rowid. split; [lia|].
  intros r Hr. apply max_rowid_bound in Hr. lia.
Qed.

Lemma create_password_appends_one_row_witness :
  rows (disk (snd (create_password github (vault_with [gitlab_row] 1700000100))))
  = [gitlab_row; mkRow 3 "github" "alice" [Byte.x01; Byte.x02] 1700000100].
Proof.
  apply (create_password_appends_one_row (vault_with [gitlab_row] 1700000100)
           (snd (create_password github (vault_with [gitlab_row] 1700000100)))
           github).
  reflexivity.
Defined.

(** X13: on the schema of [init_db], [create_password] returns [True]
    exactly when nothing fails in the storage layer (connect, PRAGMA, INSERT,
    COMMIT) and the table has not used up its rowids; which services and
    usernames the table already holds plays no part. *)
Theorem create_password_succeeds_iff_storage_works (w : world) (e : PasswordEntry) :
  schema (disk w) = vault_schema ->
  fst (create_password e w) =
  Returned (write_ok (InsertInto (service e) (username e) (encrypted_password e)) w
            && negb (rowid_full (disk w))).
Proof.
  destruct w as [[sch r q] tx n c f l]. cbn [disk schema]. intros H. subst sch.
  run_py;
    try match goal with
    | H : run_statement _ (InsertInto _ _ _) _ = _ |- _ =>
        rewrite insert_on_vault in H;
        destruct (rowid_full _); inversion H; subst; clear H
    end;
    first [discriminate | reflexivity].
Qed.

(** A failing COMMIT, and a table whose counter stands at the largest
    rowid. *)
Lemma create_password_succeeds_iff_storage_works_witness :
  fst (create_password github (set_env commit_fails (vault_with [github_row] 4)))
  = Returned false /\
  fst (create_password github
         (mkWorld (mkDatabase vault_schema [github_row] largest_rowid)
                  None 0 4 no_faults []))
  = Returned false.
Proof.
  split.
  - apply (create_password_succeeds_iff_storage_works
             (set_env commit_fails (vault_with [github_row] 4)) github).
    reflexivity.
  - apply (create_password_succeeds_iff_storage_works
             (mkWorld (mkDatabase vault_schema [github_row] largest_rowid)
                      None 0 4 no_faults []) github).
    reflexivity.
Defined.

(* ================================================================== *)
(** ** More on update *)

Lemma update_password_true (w : world) (s : string) (e : PasswordEntry) :
  fst (update_password s e w) = Returned true ->
  has_table passwords (disk w) = true /\
  existsb (keyed s) (rows (disk w)) = true /\
  disk (snd (update_password s e w)) =
  mkDatabase (schema (disk w))
             (map (fun r => if keyed s r
                            then overwrite (service e) (username e)
                                           (encrypted_password e) r
                            else r)
                  (rows (disk w)))
             (sequence (disk w)).
Proof.
  destruct w as [d tx n c f l]. run_py; settle_table.
  intros _. repeat split.
  match goal with
  | H : rowcount ?c = _, H' : (0 <? rowcount ?c) = true |- _ =>
      rewrite H, no_match_length in H'; exact H'
  end.
Qed.

Lemma renamed_away (s : string) (sv us : string) (pw : bytes) (l : list row) :
  String.eqb sv s = false ->
  existsb (keyed s)
    (map (fun r => if keyed s r then overwrite sv us pw r else r) l) = false.
Proof.
  intros Hne. induction l as [|r l IH]; simpl; [reflexivity|].
  rewrite IH, orb_false_r.
  destruct (keyed s r) eqn:Hr; [|exact Hr].
  unfold keyed, overwrite. cbn [r_service]. exact Hne.
Qed.

(** X14: a rename moves the key: when [update_password s e] returns [True]
    and the service of [e] differs from [s], no row is keyed by [s] any more
    and [read_password_by_service s] returns [None]. *)
Theorem update_password_renames_key (w w' : world) (s : string) (e : PasswordEntry) :
  update_password s e w = (Returned true, w') ->
  service e <> s ->
  existsb (keyed s) (rows (disk w')) = false /\
  forall f, fst (read_password_by_service s (set_env f w')) = Returned None.
Proof.
  intros Hrun Hne.
  assert (Hw : w' = snd (update_password s e w)) by (rewrite Hrun; reflexivity).
  destruct (update_password_true w s e) as (_ & _ & Hdisk);
    [rewrite Hrun; reflexivity|].
  rewrite <- Hw in Hdisk.
  assert (Hgone : existsb (keyed s) (rows (disk w')) = false).
  { rewrite Hdisk. cbn [rows]. apply renamed_away. apply String.eqb_neq. exact Hne. }
  split; [exact Hgone|].
  intros f. rewrite read_password_by_service_result.
  replace (disk (set_env f w')) with (disk w') by (destruct w'; reflexivity).
  rewrite (find_none_existsb _ _ Hgone).
  destruct (read_ok _ _); reflexivity.
Qed.

Lemma update_password_renames_key_witness :
  fst (read_password_by_service "gitlab"
         (set_env no_faults
            (snd (update_password "gitlab" (new_entry "bitbucket" "dave" [Byte.x05])
                    (vault_with [github_row; gitlab_row] 6)))))
  = Returned None.
Proof.
  apply (update_password_renames_key (vault_with [github_row; gitlab_row] 6)
           (snd (update_password "gitlab" (new_entry "bitbucket" "dave" [Byte.x05])
                   (vault_with [github_row; gitlab_row] 6)))
           "gitlab" (new_entry "bitbucket" "dave" [Byte.x05])).
  - reflexivity.
  - discriminate.
Defined.

(** X15: on the schema of [init_db], [update_password s e] returns [True]
    exactly when nothing fails in the storage layer and some row is keyed by
    [s]; whether the new service is already taken plays no part. *)
Theorem update_password_succeeds_iff_found (w : world) (s : string) (e : PasswordEntry) :
  schema (disk w) = vault_schema ->
  fst (update_password s e w) =
  Returned (write_ok (UpdateSet (service e) (username e) (encrypted_password e)
                                (Service, VText s)) w
            && existsb (keyed s) (rows (disk w))).
Proof.
  destruct w as [[sch r q] tx n c f l]. cbn [disk schema]. intros H. subst sch.
  run_py;
    try match goal with
    | H : run_statement _ (UpdateSet _ _ _ _) _ = _ |- _ =>
        rewrite update_on_vault in H; inversion H; subst; clear H
    end;
    cbn [rowcount rows] in *;
    change (matches (Service, VText s)) with (keyed s) in *;
    rewrite ?no_match_length in *; simpl; congruence.
Qed.

Lemma update_password_succeeds_iff_found_witness :
  fst (update_password "gitlab" github_bob (vault_with [github_row] 4))
  = Returned false.
Proof.
  apply (update_password_succeeds_iff_found (vault_with [github_row] 4)
           "gitlab" github_bob).
  reflexivity.
Defined.

(* ================================================================== *)
(** ** More on delete *)

(** X16: deleting twice: after a [delete_password s] that returned [True], a
    second [delete_password s] returns [False] and leaves the file as the
    first left it, whatever the storage layer does then. *)
Theorem delete_password_twice (w w' : world) (s : string) (f : faults) :
  delete_password s w = (Returned true, w') ->
  fst (delete_password s (set_env f w')) = Returned false /\
  disk (snd (delete_password s (set_env f w'))) = disk w'.
Proof.
  intros Hrun.
  assert (Hw : w' = snd (delete_password s w)) by (rewrite Hrun; reflexivity).
  pose proof (delete_password_result s w) as Hb. rewrite Hrun in Hb. cbn [fst] in Hb.
  inversion Hb as [Hb']. symmetry in Hb'.
  apply andb_true_iff in Hb'. destruct Hb' as [Hok _].
  pose proof (delete_password_disk s w) as Hd. rewrite Hok, <- Hw in Hd.
  assert (Hgone : existsb (keyed s) (rows (disk (set_env f w'))) = false).
  { replace (disk (set_env f w')) with (disk w') by (destruct w'; reflexivity).
    rewrite Hd. cbn [rows]. apply removed_all. }
  assert (Hfalse : fst (delete_password s (set_env f w')) = Returned false).
  { rewrite delete_password_result, Hgone. rewrite andb_false_r. reflexivity. }
  split; [exact Hfalse|].
  rewrite (delete_password_false _ _ Hfalse). destruct w'; reflexivity.
Qed.

Lemma delete_password_twice_witness :
  fst (delete_password "github"
         (set_env no_faults
            (snd (delete_password "github" (vault_with [github_row; gitlab_row] 2)))))
  = Returned false.
Proof.
  apply (delete_password_twice (vault_with [github_row; gitlab_row] 2)
           (snd (delete_password "github" (vault_with [github_row; gitlab_row] 2)))
           "github" no_faults).
  reflexivity.
Defined.

(* ================================================================== *)
(** ** Other keys *)

Lemma find_snoc_other (p : row -> bool) (l : list row) (r : row) :
  p r = false -> find p (l ++ [r]) = find p l.
Proof.
  intros Hr. induction l as [|x l IH]; simpl; [rewrite Hr; reflexivity|].
  destruct (p x); [reflexivity|exact IH].
Qed.

Lemma keyed_other (s s' : string) (r : row) :
  s <> s' -> keyed s r = true -> keyed s' r = false.
Proof.
  unfold keyed. intros Hne Hr. apply String.eqb_eq in Hr.
  apply String.eqb_neq. congruence.
Qed.

Lemma find_update_other (s s' sv us : string) (pw : bytes) (l : list row) :
  s <> s' -> sv <> s' ->
  find (keyed s')
       (map (fun r => if keyed s r then overwrite sv us pw r else r) l)
  = find (keyed s') l.
Proof.
  intros Hs Hsv. induction l as [|r l IH]; simpl; [reflexivity|].
  destruct (keyed s r) eqn:Hr.
  - rewrite (keyed_other s s' r Hs Hr).
    replace (keyed s' (overwrite sv us pw r)) with false; [exact IH|].
    symmetry. unfold keyed, overwrite. cbn [r_service].
    apply String.eqb_neq. exact Hsv.
  - rewrite IH. reflexivity.
Qed.

Lemma find_filter_other (s s' : string) (l : list row) :
  s <> s' ->
  find (keyed s') (filter (fun r => negb (keyed s r)) l) = find (keyed s') l.
Proof.
  intros Hs. induction l as [|r l IH]; simpl; [reflexivity|].
  destruct (keyed s r) eqn:Hr; simpl.
  - rewrite (keyed_other s s' r Hs Hr). exact IH.
  - rewrite IH. reflexivity.
Qed.

(** What a read by service returns depends on the file only through the
    presence of the table and the first row with the key. *)
Lemma read_depends (s : string) (f : faults) (w1 w2 : world) :
  has_table passwords (disk w1) = has_table passwords (disk w2) ->
  find (keyed s) (rows (disk w1)) = find (keyed s) (rows (disk w2)) ->
  fst (read_password_by_service s (set_env f w1)) =
  fst (read_password_by_service s (set_env f w2)).
Proof.
  intros Ht Hf. rewrite !read_password_by_service_result.
  destruct w1, w2. unfold read_ok, works, set_env in *. cbn [disk env] in *.
  rewrite Ht, Hf. reflexivity.
Qed.

(** X17: a write on one key leaves every other key as it reads: for a key
    [s'] that is neither the key written nor the new service,
    [read_password_by_service s'] returns after [create_password],
    [update_password] and [delete_password] what it returned before
    (on the same storage behaviour), whether the write succeeded or not. *)
Theorem writes_leave_other_keys
  (w : world) (e : PasswordEntry) (s s' : string) (f : faults) :
  (service e <> s' ->
   fst (read_password_by_service s' (set_env f (snd (create_password e w)))) =
   fst (read_password_by_service s' (set_env f w))) /\
  (s <> s' -> service e <> s' ->
   fst (read_password_by_service s' (set_env f (snd (update_password s e w)))) =
   fst (read_password_by_service s' (set_env f w))) /\
  (s <> s' ->
   fst (read_password_by_service s' (set_env f (snd (delete_password s w)))) =
   fst (read_password_by_service s' (set_env f w))).
Proof.
  split; [|split].
  - intros He. apply read_depends;
      destruct w as [d tx n c g l]; run_py; settle_table; try assumption.
    all: cbn [rows]; apply find_snoc_other; unfold keyed; cbn [r_service];
      apply String.eqb_neq; exact He.
  - intros Hs He. apply read_depends;
      destruct w as [d tx n c g l]; run_py; settle_table; try assumption.
    all: cbn [rows]; change (matches (Service, VText s)) with (keyed s);
      apply find_update_other; assumption.
  - intros Hs. apply read_depends;
      destruct w as [d tx n c g l]; run_py; settle_table; try assumption.
    all: cbn [rows]; change (matches (Service, VText s)) with (keyed s);
      apply find_filter_other; assumption.
Qed.

Lemma writes_leave_other_keys_witness :
  fst (read_password_by_service "github"
         (set_env no_faults
            (snd (delete_password "gitlab" (vault_with [github_row; gitlab_row] 3)))))
  = fst (read_password_by_service "github"
           (set_env no_faults (vault_with [github_row; gitlab_row] 3))).
Proof.
  destruct (writes_leave_other_keys (vault_with [github_row; gitlab_row] 3)
              github "gitlab" "github" no_faults) as (_ & _ & H).
  apply H. discriminate.
Defined.

(* ================================================================== *)
(** ** More on the reads *)

Lemma find_split (p : row -> bool) (l : list row) (r : row) :
  find p l = Some r ->
  exists l1 l2, l = (l1 ++ r :: l2)%list /\ existsb p l1 = false /\ p r = true.
Proof.
  induction l as [|x l IH]; simpl; [discriminate|].
  destruct (p x) eqn:Hx.
  - intros H. inversion H; subst. exists [], l. auto.
  - intros H. destruct (IH H) as (l1 & l2 & Hl & Hn & Hr).
    exists (x :: l1), l2. subst l. simpl. rewrite Hx. auto.
Qed.

Lemma find_present (p : row -> bool) (l : list row) (r : row) :
  existsb p l = true -> find p (l ++ [r]) = find p l.
Proof.
  induction l as [|x l IH]; simpl; [discriminate|].
  destruct (p x); simpl; [reflexivity|exact IH].
Qed.

(** X18: what a read by key returns is the oldest match: when
    [read_password_by_service s] returns an entry, the table splits into
    rows of which none has service [s], then a row [r] whose service is [s],
    then the rest, and the entry is that row [r]: service [s] and the
    username, bytes and [created_at] of [r].  The same holds for
    [read_password_by_username] and the username. *)
Theorem read_by_key_returns_first_match
  (w : world) (s u : string) (e : PasswordEntry) :
  (fst (read_password_by_service s w) = Returned (Some e) ->
   exists l1 r l2,
     rows (disk w) = (l1 ++ r :: l2)%list /\ existsb (keyed s) l1 = false /\
     r_service r = s /\
     e = mkPasswordEntry (r_service r) (r_username r) (r_encrypted_password r)
                         (Some (r_created_at r))) /\
  (fst (read_password_by_username u w) = Returned (Some e) ->
   exists l1 r l2,
     rows (disk w) = (l1 ++ r :: l2)%list /\ existsb (by_username u) l1 = false /\
     r_username r = u /\
     e = mkPasswordEntry (r_service r) (r_username r) (r_encrypted_password r)
                         (Some (r_created_at r))).
Proof.
  split.
  - rewrite read_password_by_service_result.
    destruct (read_ok _ w); [|discriminate].
    destruct (find (keyed s) (rows (disk w))) as [r|] eqn:Hf; [|discriminate].
    intros H. inversion H; subst.
    destruct (find_split _ _ _ Hf) as (l1 & l2 & Hl & Hn & Hr).
    exists l1, r, l2. repeat split; try assumption.
    unfold keyed in Hr. apply String.eqb_eq in Hr. exact Hr.
  - rewrite read_password_by_username_result.
    destruct (read_ok _ w); [|discriminate].
    destruct (find (by_username u) (rows (disk w))) as [r|] eqn:Hf; [|discriminate].
    intros H. inversion H; subst.
    destruct (find_split _ _ _ Hf) as (l1 & l2 & Hl & Hn & Hr).
    exists l1, r, l2. repeat split; try assumption.
    unfold by_username in Hr. apply String.eqb_eq in Hr. exact Hr.
Qed.

(** Two rows with username carol: the read returns the first. *)
Lemma read_by_key_returns_first_match_witness :
  exists l1 r l2,
    [github_row; gitlab_row; mkRow 3 "bitbucket" "carol" [Byte.x06] 1700000070]
    = (l1 ++ r :: l2)%list /\
    existsb (by_username "carol") l1 = false /\
    r_username r = "carol" /\
    mkPasswordEntry "gitlab" "carol" [Byte.x04] (Some 1700000050) =
    mkPasswordEntry (r_service r) (r_username r) (r_encrypted_password r)
                    (Some (r_created_at r)).
Proof.
  destruct (read_by_key_returns_first_match
              (vault_with [github_row; gitlab_row;
                           mkRow 3 "bitbucket" "carol" [Byte.x06] 1700000070] 3)
              "gitlab" "carol"
              (mkPasswordEntry "gitlab" "carol" [Byte.x04] (Some 1700000050)))
    as (_ & H).
  apply H. reflexivity.
Defined.

(** X19: a second entry for a service is shadowed: when a row keyed by the
    service of [e] exists and [create_password e] returns [True],
    [read_password_by_service] of that service still returns what it
    returned before the call, not the entry just created. *)
Theorem duplicate_is_shadowed (w w' : world) (e : PasswordEntry) :
  existsb (keyed (service e)) (rows (disk w)) = true ->
  create_password e w = (Returned true, w') ->
  fst (read_password_by_service (service e) (quiet w')) =
  fst (read_password_by_service (service e) (quiet w)).
Proof.
  intros Hthere Hrun.
  assert (Hw : w' = snd (create_password e w)) by (rewrite Hrun; reflexivity).
  destruct (create_password_true w e) as [Ht Hdisk]; [rewrite Hrun; reflexivity|].
  rewrite <- Hw in Hdisk.
  apply (read_depends (service e) no_faults w' w).
  - rewrite Hdisk. apply has_table_schema.
  - rewrite Hdisk. cbn [rows]. apply find_present. exact Hthere.
Qed.

Lemma duplicate_is_shadowed_witness :
  fst (read_password_by_service "github"
         (quiet (snd (create_password github_bob (vault_with [github_row] 1700000300)))))
  = Returned (Some (mkPasswordEntry "github" "alice" [Byte.x01; Byte.x02]
                                    (Some 1700000000))).
Proof.
  refine (eq_trans
            (duplicate_is_shadowed (vault_with [github_row] 1700000300)
               (snd (create_password github_bob (vault_with [github_row] 1700000300)))
               github_bob _ _) _); reflexivity.
Defined.

(** X20: [read_all_passwords] after a create: when [create_password e]
    returned [True], [read_all_passwords] on a storage layer that works
    returns the entries of the rows that were there, in table order,
    followed by the new entry with the time of the insert as [created_at]. *)
Theorem read_all_after_create (w w' : world) (e : PasswordEntry) :
  create_password e w = (Returned true, w') ->
  fst (read_all_passwords (quiet w')) =
  Returned (map entry_of (rows (disk w))
            ++ [mkPasswordEntry (service e) (username e) (encrypted_password e)
                                (Some (now w))])%list.
Proof.
  intros Hrun.
  assert (Hw : w' = snd (create_password e w)) by (rewrite Hrun; reflexivity).
  destruct (create_password_true w e) as [Ht Hdisk]; [rewrite Hrun; reflexivity|].
  rewrite <- Hw in Hdisk.
  rewrite read_all_passwords_result.
  replace (read_ok (SelectFrom None) (quiet w')) with true.
  - replace (disk (quiet w')) with (disk w') by (destruct w'; reflexivity).
    rewrite Hdisk. cbn [rows]. rewrite map_app. reflexivity.
  - unfold read_ok, works, quiet, set_env, no_faults. cbn [env disk andb].
    rewrite Hdisk, has_table_schema, Ht. reflexivity.
Qed.

Lemma read_all_after_create_witness :
  fst (read_all_passwords
         (quiet (snd (create_password github (vault_with [gitlab_row] 1700000100)))))
  = Returned [ mkPasswordEntry "gitlab" "carol" [Byte.x04] (Some 1700000050);
               mkPasswordEntry "github" "alice" [Byte.x01; Byte.x02]
                               (Some 1700000100) ].
Proof.
  apply (read_all_after_create (vault_with [gitlab_row] 1700000100)
           (snd (create_password github (vault_with [gitlab_row] 1700000100)))
           github).
  reflexivity.
Defined.

(** X21: [read_all_passwords] is all or nothing: it returns either the empty
    list or one entry per row of the table, in table order; every entry it
    returns has [created_at] set. *)
Theorem read_all_passwords_all_or_nothing (w : world) :
  exists l,
    fst (read_all_passwords w) = Returned l /\
    (l = [] \/ l = map entry_of (rows (disk w))) /\
    Forall (fun e => created_at e <> None) l.
Proof.
  rewrite read_all_passwords_result.
  destruct (read_ok _ w).
  - eexists. split; [reflexivity|]. split; [right; reflexivity|].
    apply Forall_forall. intros e He. apply in_map_iff in He.
    destruct He as (r & Hr & _). subst e. discriminate.
  - exists []. split; [reflexivity|]. split; [left; reflexivity|constructor].
Qed.

(* ================================================================== *)
(** ** What reaches the log *)

Ltac count_matches s :=
  cbn [rowcount] in *;
  change (matches (Service, VText s)) with (keyed s) in *;
  repeat match goal with
  | H : rowcount ?c = _, H' : context [rowcount ?c] |- _ => rewrite H in H'
  end;
  rewrite ?no_match_length in *.

Ltac log_done :=
  cbn [andb negb] in *; rewrite ?andb_false_r, <- ?app_assoc, ?app_nil_r;
  cbn [app andb negb];
  first [discriminate | reflexivity | congruence].

(** X22: the log tells a missing key from a failure.  [delete_password s]
    appends INFO when it removed rows, WARNING when nothing failed and no
    row was keyed by [s], and ERROR when something failed in the storage
    layer (after the CRITICAL line of [get_connection] when the connection
    could not be set up); nothing else. *)
Theorem delete_password_log (w : world) (s : string) :
  log (snd (delete_password s w)) =
  (log w ++
   if write_ok (DeleteFrom (Service, VText s)) w
   then [if existsb (keyed s) (rows (disk w)) then INFO else WARNING]
   else failure_lines w ERROR)%list.
Proof.
  destruct w as [d tx n c f l]. unfold failure_lines, connection_fails.
  run_py; settle_table; count_matches s;
    repeat match goal with H : existsb _ _ = _ |- _ => rewrite H end;
    log_done.
Qed.

(** X23: the same for [update_password] on the schema of [init_db]: INFO
    when a row keyed by [s] was updated, WARNING when nothing failed and no
    row was keyed by [s], ERROR (after CRITICAL when the connection could not
    be set up) when something failed. *)
Theorem update_password_log (w : world) (s : string) (e : PasswordEntry) :
  schema (disk w) = vault_schema ->
  log (snd (update_password s e w)) =
  (log w ++
   if write_ok (UpdateSet (service e) (username e) (encrypted_password e)
                          (Service, VText s)) w
   then [if existsb (keyed s) (rows (disk w)) then INFO else WARNING]
   else failure_lines w ERROR)%list.
Proof.
  destruct w as [[sch r q] tx n c f l]. cbn [disk schema]. intros H. subst sch.
  unfold failure_lines, connection_fails.
  run_py;
    try match goal with
    | H : run_statement _ (UpdateSet _ _ _ _) _ = _ |- _ =>
        rewrite update_on_vault in H; inversion H; subst; clear H
    end;
    count_matches s; cbn [rows];
    repeat match goal with H : existsb _ _ = _ |- _ => rewrite H end;
    log_done.
Qed.

Lemma update_password_log_witness :
  log (snd (update_password "gitlab" github_bob (vault_with [github_row] 4)))
  = [WARNING].
Proof.
  apply (update_password_log (vault_with [github_row] 4) "gitlab" github_bob).
  reflexivity.
Defined.

(** X24: [create_password] logs SUCCESS exactly when it returns [True].
    When it returns [False] it has logged one line of its own, WARNING or
    ERROR, after the CRITICAL line of [get_connection] when the connection
    could not be set up. *)
Theorem create_password_log (w : world) (e : PasswordEntry) :
  (fst (create_password e w) = Returned true /\
   log (snd (create_password e w)) = (log w ++ [SUCCESS])%list) \/
  (fst (create_password e w) = Returned false /\
   (log (snd (create_password e w)) = (log w ++ failure_lines w WARNING)%list \/
    log (snd (create_password e w)) = (log w ++ failure_lines w ERROR)%list)).
Proof.
  destruct w as [d tx n c f l]. unfold failure_lines, connection_fails.
  run_py; settle_table; count_matches (service e);
    try (left; split; [|reflexivity]);
    try match goal with H : rowcount _ = 1 |- _ => rewrite H; reflexivity end;
    right; (split; [reflexivity|]);
    first [left; log_done | right; log_done].
Qed.

(** X25: the reads log nothing when they return rows.  A read by key
    appends DEBUG when nothing failed and no row matched; every read appends
    ERROR (after CRITICAL when the connection could not be set up) when
    something failed; otherwise the log is as it was. *)
Theorem reads_log (w : world) (s u : string) :
  log (snd (read_password_by_service s w)) =
  (log w ++
   if read_ok (SelectFrom (Some (Service, VText s))) w
   then (if existsb (keyed s) (rows (disk w)) then [] else [DEBUG])
   else failure_lines w ERROR)%list /\
  log (snd (read_password_by_username u w)) =
  (log w ++
   if read_ok (SelectFrom (Some (Username, VText u))) w
   then (if existsb (by_username u) (rows (disk w)) then [] else [DEBUG])
   else failure_lines w ERROR)%list /\
  log (snd (read_all_passwords w)) =
  (log w ++
   if read_ok (SelectFrom None) w then [] else failure_lines w ERROR)%list.
Proof.
  destruct w as [d tx n c f l]. unfold failure_lines, connection_fails.
  assert (Hhit : forall (p : row -> bool) (rs : list row) (x : Row),
             hd_error (map project (filter p rs)) = Some x -> existsb p rs = true).
  { intros p rs x. rewrite first_hit.
    destruct (find p rs) as [r|] eqn:Hf; [|discriminate].
    intros _. apply existsb_exists. exists r.
    apply find_some in Hf. exact Hf. }
  assert (Hmiss : forall (p : row -> bool) (rs : list row),
             hd_error (map project (filter p rs)) = None -> existsb p rs = false).
  { intros p rs. rewrite first_hit.
    destruct (find p rs) as [r|] eqn:Hf; [discriminate|].
    intros _. destruct (existsb p rs) eqn:Hex; [|reflexivity].
    apply existsb_exists in Hex. destruct Hex as (r & Hin & Hr).
    exfalso. exact (eq_true_false_abs _ Hr (find_none _ _ Hf r Hin)). }
  split; [|split]; run_py; settle_table;
    try solve [log_done];
    match goal with
    | H : hd_error (pending_rows ?c) = Some _, P : pending_rows ?c = _ |- _ =>
        rewrite P in H; apply Hhit in H
    | H : hd_error (pending_rows ?c) = None, P : pending_rows ?c = _ |- _ =>
        rewrite P in H; apply Hmiss in H
    end;
    change (matches (Service, VText s)) with (keyed s) in *;
    change (matches (Username, VText u)) with (by_username u) in *;
    match goal with H : existsb _ _ = _ |- _ => rewrite H end;
    log_done.
Qed.

(* ================================================================== *)
(** ** Transactions *)

(** X26: no operation returns with a transaction open: starting without
    one, [init_db] and every CRUD operation end without one, on every exit
    path: the with-block has committed or rolled back. *)
Theorem no_transaction_left_open (w : world) (e : PasswordEntry) (s u : string) :
  txn w = None ->
  txn (snd (init_db w)) = None /\
  txn (snd (create_password e w)) = None /\
  txn (snd (read_all_passwords w)) = None /\
  txn (snd (read_password_by_service s w)) = None /\
  txn (snd (read_password_by_username u w)) = None /\
  txn (snd (update_password s e w)) = None /\
  txn (snd (delete_password s w)) = None.
Proof.
  destruct w as [d tx n c f l]. cbn [txn]. intros H. subst tx.
  repeat split; run_py; reflexivity.
Qed.

Lemma no_transaction_left_open_witness :
  txn (snd (create_password github
              (set_env commit_fails (vault_with [gitlab_row] 5)))) = None.
Proof.
  apply (no_transaction_left_open (set_env commit_fails (vault_with [gitlab_row] 5))
           github "github" "alice").
  reflexivity.
Defined.

(* ================================================================== *)
(** ** A whole life of an entry *)

Lemma select_on_vault (t : datetime) (wh : option (column * value))
  (l : list row) (q : Z) :
  run_statement t (SelectFrom wh) (mkDatabase vault_schema l q) =
  inr (mkDatabase vault_schema l q,
       mkCursor (-1) (map project (match wh with
                                   | None => l
                                   | Some w => filter (matches w) l
                                   end))).
Proof. reflexivity. Qed.

Lemma delete_on_vault (t : datetime) (w : column * value) (l : list row) (q : Z) :
  run_statement t (DeleteFrom w) (mkDatabase vault_schema l q) =
  inr (mkDatabase vault_schema (filter (fun r => negb (matches w r)) l) q,
       mkCursor (Z.of_nat (List.length (filter (matches w) l))) []).
Proof. reflexivity. Qed.

Ltac pragma_on_vault :=
  match goal with
  | |- context [run_statement ?t PragmaForeignKeysOn ?d] =>
      change (run_statement t PragmaForeignKeysOn d) with
        (@inr Error (database * Cursor) (d, mkCursor (-1) []))
  end.

Lemma read_password_by_service_on_vault (s : string) (l : list row) (q : Z)
  (tx : option database) (n : nat) (t : datetime) (lg : list level) :
  read_password_by_service s
    (mkWorld (mkDatabase vault_schema l q) tx n t no_faults lg) =
  (Returned (option_map entry_of (find (keyed s) l)),
   mkWorld (mkDatabase vault_schema l q) None (S n) t no_faults
           (match find (keyed s) l with
            | Some _ => lg
            | None => lg ++ [DEBUG]
            end)).
Proof.
  unfold_py. pragma_on_vault. unfold_py. rewrite select_on_vault. unfold_py.
  cbn [pending_rows]. rewrite first_hit.
  change (matches (Service, VText s)) with (keyed s).
  destruct (find (keyed s) l); reflexivity.
Qed.

Lemma read_all_passwords_on_vault (l : list row) (q : Z)
  (tx : option database) (n : nat) (t : datetime) (lg : list level) :
  read_all_passwords (mkWorld (mkDatabase vault_schema l q) tx n t no_faults lg) =
  (Returned (map entry_of l),
   mkWorld (mkDatabase vault_schema l q) None (S n) t no_faults lg).
Proof.
  unfold_py. pragma_on_vault. unfold_py. rewrite select_on_vault. unfold_py.
  cbn [pending_rows]. rewrite map_map. reflexivity.
Qed.

Lemma delete_password_on_vault (s : string) (l : list row) (q : Z)
  (tx : option database) (n : nat) (t : datetime) (lg : list level) :
  existsb (keyed s) l = true ->
  delete_password s (mkWorld (mkDatabase vault_schema l q) tx n t no_faults lg) =
  (Returned true,
   mkWorld (mkDatabase vault_schema (filter (fun r => negb (keyed s r)) l) q)
           None (S n) t no_faults (lg ++ [INFO])).
Proof.
  intros Hs. unfold_py. pragma_on_vault. unfold_py.
  rewrite delete_on_vault. unfold_py. cbn [rowcount].
  change (matches (Service, VText s)) with (keyed s).
  rewrite no_match_length, Hs. reflexivity.
Qed.

(** X1: the scenario of the specification's section 8 holds for every pair
    of distinct keys and all values: on a new vault, create [s] returns
    [True] and the read returns the entry; the rename to [s'] returns
    [True]; then [s] is not found and [s'] reads as the new username and
    bytes with the [created_at] of the create; delete [s'] returns [True] and
    [read_all_passwords] returns the empty list. *)
Theorem lifecycle_run (t : datetime) (s u : string) (p : bytes)
  (s' u' : string) (p' : bytes) :
  s <> s' ->
  fst (lifecycle s u p s' u' p' (fresh_world t)) =
  Returned (true,
            Some (mkPasswordEntry s u p (Some t)),
            true,
            None,
            Some (mkPasswordEntry s' u' p' (Some t)),
            true,
            []).
Proof.
  intros Hne.
  assert (Hss : String.eqb s s = true) by apply String.eqb_refl.
  assert (Hs's' : String.eqb s' s' = true) by apply String.eqb_refl.
  assert (Hs's : String.eqb s' s = false)
    by (apply String.eqb_neq; congruence).
  unfold lifecycle, bind. rewrite init_db_fresh.
  rewrite create_password_on_vault by reflexivity.
  rewrite read_password_by_service_on_vault.
  cbn [find app new_entry service username encrypted_password].
  unfold keyed at 1 2. cbn [r_service]. rewrite Hss.
  rewrite update_password_on_vault
    by (cbn [existsb]; unfold keyed; cbn [r_service]; rewrite Hss; reflexivity).
  cbn [map new_entry service username encrypted_password].
  unfold keyed at 1, overwrite. cbn [r_service r_id r_created_at]. rewrite Hss.
  rewrite read_password_by_service_on_vault.
  cbn [find]. unfold keyed at 1 2. cbn [r_service]. rewrite Hs's.
  rewrite read_password_by_service_on_vault.
  cbn [find]. unfold keyed at 1 2. cbn [r_service]. rewrite Hs's'.
  rewrite delete_password_on_vault
    by (cbn [existsb]; unfold keyed; cbn [r_service]; rewrite Hs's'; reflexivity).
  cbn [filter]. unfold keyed at 1. cbn [r_service]. rewrite Hs's'. cbn [negb].
  rewrite read_all_passwords_on_vault.
  reflexivity.
Qed.

Lemma lifecycle_run_witness :
  fst (lifecycle "github" "alice" [Byte.x01; Byte.x02]
                 "github-new" "alice2" [Byte.x03] (fresh_world 1700000000)) =
  Returned (true,
            Some (mkPasswordEntry "github" "alice" [Byte.x01; Byte.x02]
                                  (Some 1700000000)),
            true,
            None,
            Some (mkPasswordEntry "github-new" "alice2" [Byte.x03]
                                  (Some 1700000000)),
            true,
            []).
Proof.
  apply (lifecycle_run 1700000000 "github" "alice" [Byte.x01; Byte.x02]
                       "github-new" "alice2" [Byte.x03]).
  discriminate.
Defined.

(* ================================================================== *)
(** ** Reads after writes *)

Lemma read_ok_quiet (q : statement) (w : world) :
  read_ok q (quiet w) = has_table passwords (disk w).
Proof.
  destruct w. unfold read_ok, works, quiet, set_env, no_faults.
  cbn [env disk andb]. apply andb_true_r.
Qed.

Lemma disk_quiet (w : world) : disk (quiet w) = disk w.
Proof. destruct w. reflexivity. Qed.

Lemma read_all_quiet (w : world) :
  has_table passwords (disk w) = true ->
  fst (read_all_passwords (quiet w)) = Returned (map entry_of (rows (disk w))).
Proof.
  intros Ht. rewrite read_all_passwords_result, read_ok_quiet, disk_quiet, Ht.
  reflexivity.
Qed.

(** X27: the round trip by username: in a state with no row for the
    username of [e], when [create_password e] returned [True],
    [read_password_by_username] of that username (on a storage layer that
    works) returns the service, username and bytes of [e] with the time of
    the insert as [created_at]. *)
Theorem create_then_read_by_username (w w' : world) (e : PasswordEntry) :
  existsb (by_username (username e)) (rows (disk w)) = false ->
  create_password e w = (Returned true, w') ->
  fst (read_password_by_username (username e) (quiet w')) =
  Returned (Some (mkPasswordEntry (service e) (username e) (encrypted_password e)
                                  (Some (now w)))).
Proof.
  intros Hnew Hrun.
  assert (Hw : w' = snd (create_password e w)) by (rewrite Hrun; reflexivity).
  destruct (create_password_true w e) as [Ht Hdisk]; [rewrite Hrun; reflexivity|].
  rewrite <- Hw in Hdisk.
  rewrite read_password_by_username_result, read_ok_quiet, disk_quiet, Hdisk.
  rewrite has_table_schema, Ht. cbn [rows].
  rewrite (find_after _ _ _ Hnew). cbn [find]. unfold by_username at 1.
  cbn [r_username]. rewrite String.eqb_refl. reflexivity.
Qed.

Lemma create_then_read_by_username_witness :
  fst (read_password_by_username "alice"
         (quiet (snd (create_password github (vault_with [gitlab_row] 1700000100)))))
  = Returned (Some (mkPasswordEntry "github" "alice" [Byte.x01; Byte.x02]
                                    (Some 1700000100))).
Proof.
  apply (create_then_read_by_username (vault_with [gitlab_row] 1700000100)
           (snd (create_password github (vault_with [gitlab_row] 1700000100)))
           github); reflexivity.
Defined.

Lemma entries_of_update (s : string) (e : PasswordEntry) (l : list row) :
  map entry_of
      (map (fun r => if keyed s r
                     then overwrite (service e) (username e) (encrypted_password e) r
                     else r) l)
  = map (fun r => if keyed s r
                  then mkPasswordEntry (service e) (username e) (encrypted_password e)
                                       (Some (r_created_at r))
                  else entry_of r) l.
Proof.
  rewrite map_map. apply map_ext. intros r. destruct (keyed s r); reflexivity.
Qed.

(** X28: [read_all_passwords] after a write that returned [True], on a
    storage layer that works: after [update_password s e] it returns the
    table in its old order, the rows keyed by [s] now reading as [e] with
    their own [created_at] and the others as before; after
    [delete_password s] it returns the entries of the rows not keyed by [s],
    in their old order. *)
Theorem read_all_after_update_or_delete
  (w w' : world) (s : string) (e : PasswordEntry) :
  (update_password s e w = (Returned true, w') ->
   fst (read_all_passwords (quiet w')) =
   Returned (map (fun r => if keyed s r
                           then mkPasswordEntry (service e) (username e)
                                                (encrypted_password e)
                                                (Some (r_created_at r))
                           else entry_of r)
                 (rows (disk w)))) /\
  (delete_password s w = (Returned true, w') ->
   fst (read_all_passwords (quiet w')) =
   Returned (map entry_of (filter (fun r => negb (keyed s r)) (rows (disk w))))).
Proof.
  split; intros Hrun.
  - assert (Hw : w' = snd (update_password s e w)) by (rewrite Hrun; reflexivity).
    destruct (update_password_true w s e) as (Ht & _ & Hdisk);
      [rewrite Hrun; reflexivity|].
    rewrite <- Hw in Hdisk.
    rewrite read_all_quiet by (rewrite Hdisk, has_table_schema; exact Ht).
    rewrite Hdisk. cbn [rows]. rewrite entries_of_update. reflexivity.
  - assert (Hw : w' = snd (delete_password s w)) by (rewrite Hrun; reflexivity).
    pose proof (delete_password_result s w) as Hb. rewrite Hrun in Hb.
    cbn [fst] in Hb. inversion Hb as [Hb']. symmetry in Hb'.
    apply andb_true_iff in Hb'. destruct Hb' as [Hok _].
    pose proof (delete_password_disk s w) as Hd. rewrite Hok, <- Hw in Hd.
    assert (Ht : has_table passwords (disk w) = true).
    { unfold write_ok in Hok.
      repeat (apply andb_true_iff in Hok; destruct Hok as [Hok ?]). assumption. }
    rewrite read_all_quiet by (rewrite Hd, has_table_schema; exact Ht).
    rewrite Hd. reflexivity.
Qed.

Lemma read_all_after_update_or_delete_witness :
  fst (read_all_passwords
         (quiet (snd (delete_password "github"
                        (vault_with [github_row; gitlab_row] 7)))))
  = Returned [mkPasswordEntry "gitlab" "carol" [Byte.x04] (Some 1700000050)].
Proof.
  destruct (read_all_after_update_or_delete
              (vault_with [github_row; gitlab_row] 7)
              (snd (delete_password "github" (vault_with [github_row; gitlab_row] 7)))
              "github" github) as (_ & H).
  apply H. reflexivity.
Defined.

(** X29: [init_db] and the module body keep their connection open as well:
    after either, one more connection is open than before whenever
    [sqlite3.connect] succeeded, whether the call returned or raised. *)
Theorem init_db_leaves_connection_open (w : world) :
  open_conns (snd (init_db w)) = (open_conns w + connects w)%nat /\
  open_conns (snd (import_module w)) = (open_conns w + connects w)%nat.
Proof.
  destruct w as [d tx n c f l].
  split; run_py; lia.
Qed.
